(** * ToDoStuff: the to-do list application [todo.py]

    A shallow embedding of the data-handling code of [todo.py] (the store,
    the form and button handlers, the filters and the analytics), followed by
    the properties of the specification that are stated about it.

    Modelling decisions, all taken from the source:

    - a task is the Python [dict] the application reads from and writes to
      [todos.json].  The code reads the five keys ["id"], ["title"],
      ["priority"], ["category"] and ["completed"], each of which may be
      absent ([t.get(key, default)]), so a task is a record of five optional
      fields, each of the type the application writes (an integer, three
      strings, a boolean); [t[key]] on an absent key raises [KeyError];
    - text is a [string] whose characters are the code points below U+0100;
      [str.strip()] removes the characters [str.isspace()] accepts;
    - the backing file is abstracted up to [json.load]: it is absent, or
      reading it raises, or it decodes to a JSON value.  [json.dump] of a list
      of tasks leaves a file that decodes to that list.  A write that fails
      either cannot open the file, which is then untouched, or fails after
      [open(DATA_FILE, "w")] emptied it, which leaves a part of the text that
      no longer decodes;
    - the Streamlit calls [st.error], [st.success], [st.info], [st.metric]
      and the charts are recorded in a log (the messages are given without
      the emoji that start them); [st.rerun()] and an uncaught exception end
      the run of the script;
    - a form or a button is followed from the statements it guards: what
      the page draws before it is reached is left out, except the edit form
      of the row whose "Save" is pressed, which is drawn first;
    - the completion rate is computed on binary64 floats, as Python does. *)

From Stdlib Require Import ZArith String Ascii List Lia Floats Uint63.
From stdpp Require Import base option list strings gmap sorting.

Import ListNotations.
Local Open Scope string_scope.
Local Open Scope Z_scope.

(** ** Text *)

(** [str.isspace()] on the code points below U+0100: TAB, LF, VT, FF, CR,
    the separators FS, GS, RS, US, SPACE, NEL and NO-BREAK SPACE. *)
Definition isspace (c : ascii) : bool :=
  let n := N_of_ascii c in
  ((9 <=? n) && (n <=? 13) || (28 <=? n) && (n <=? 32)
   || (n =? 133) || (n =? 160))%N.

Fixpoint lstrip (s : string) : string :=
  match s with
  | EmptyString => EmptyString
  | String c s' => if isspace c then lstrip s' else s
  end.

Fixpoint rstrip (s : string) : string :=
  match s with
  | EmptyString => EmptyString
  | String c s' =>
      match rstrip s' with
      | EmptyString => if isspace c then EmptyString else String c EmptyString
      | r => String c r
      end
  end.

(** [s.strip()] *)
Definition strip (s : string) : string := rstrip (lstrip s).

(** Truth value of a [str]: the empty string is false. *)
Definition truthy (s : string) : bool :=
  match s with EmptyString => false | String _ _ => true end.

(** A string made of whitespace only. *)
Fixpoint blank (s : string) : bool :=
  match s with
  | EmptyString => true
  | String c s' => isspace c && blank s'
  end.

(** ** Tasks *)

Record task : Type := Task {
  tid : option Z;            (* "id" *)
  title : option string;     (* "title" *)
  priority : option string;  (* "priority" *)
  category : option string;  (* "category" *)
  completed : option bool    (* "completed" *)
}.

#[global] Instance task_eq_dec : EqDecision task.
Proof. solve_decision. Defined.

(** The options of the priority select box. *)
Inductive priority_choice : Type := Low | Medium | High.

Definition label (p : priority_choice) : string :=
  match p with Low => "Low" | Medium => "Medium" | High => "High" end.

(** [t["completed"] = v] *)
Definition set_completed (v : bool) (t : task) : task :=
  {| tid := tid t; title := title t; priority := priority t;
     category := category t; completed := Some v |}.

(** [t["title"] = a; t["category"] = b; t["priority"] = c] *)
Definition set_fields (new_title new_category new_priority : string) (t : task) : task :=
  {| tid := tid t; title := Some new_title; priority := Some new_priority;
     category := Some new_category; completed := completed t |}.

(** [t.get("id", 0)] *)
Definition get_id (t : task) : Z := default 0 (tid t).

(** [t.get("completed", False)] *)
Definition get_completed (t : task) : bool := default false (completed t).

(** ** The world: backing file, and what the page shows *)

(** A JSON value as [json.load] returns it at the top level of the file. *)
Inductive json : Type :=
  | JNull
  | JBool (b : bool)
  | JNumber (n : Z)
  | JString (s : string)
  | JObject (o : task)
  | JArray (l : list task).

(** [DATA_FILE]: absent, or present with a content whose reading or decoding
    raises the exception [e] ([json.JSONDecodeError] for malformed JSON), or
    present with a content that decodes to [data]. *)
Inductive file : Type :=
  | Absent
  | Undecodable (e : string)
  | Holds (data : json).

Inductive metric_value : Type :=
  | Count (n : nat)
  | Percent (r : float).

Inductive notice : Type :=
  | Error (msg : string)
  | Success (msg : string)
  | Info (msg : string)
  | Metric (name : string) (v : metric_value)
  | Chart (name : string) (counts : gmap string nat).

(** How writing [DATA_FILE] fails, when it does.  [OpenFails e]:
    [open(DATA_FILE, "w")] raises [e] and the file is not touched.
    [DumpFails e torn]: the file is opened, which empties it, and writing or
    closing it raises [e]; what is left in the file is a part of the text
    only, whose decoding raises [torn]. *)
Inductive write_failure : Type :=
  | OpenFails (e : string)
  | DumpFails (e torn : string).

Record world : Type := World {
  disk : file;
  write_error : option write_failure;   (* [None]: writing the file succeeds *)
  editing : gmap Z bool;         (* st.session_state["editing_<id>"] *)
  ui : list notice               (* what was reported, oldest first *)
}.

Inductive exn : Type :=
  | KeyError (key : string)
  | ValueError (x : string).     (* "x is not in list" *)

(** How a piece of the script ends: it returns a value, or [st.rerun()]
    stops the run, or an exception is raised. *)
Inductive outcome (A : Type) : Type :=
  | Return (a : A)
  | Rerun
  | Raise (e : exn).
Arguments Return {A} a.
Arguments Rerun {A}.
Arguments Raise {A} e.

Definition script (A : Type) : Type := world -> outcome A * world.

#[global] Instance script_ret : MRet script := fun A a w => (Return a, w).
#[global] Instance script_bind : MBind script := fun A B f m w =>
  match m w with
  | (Return a, w') => f a w'
  | (Rerun, w') => (Rerun, w')
  | (Raise e, w') => (Raise e, w')
  end.

Definition raise {A : Type} (e : exn) : script A := fun w => (Raise e, w).

(** A pure computation that may raise, run inside a script. *)
Definition lift {A : Type} (r : exn + A) : script A :=
  match r with inl e => raise e | inr a => mret a end.

(** The world after one more notice, after a successful write of the file,
    and after a change of the session state. *)
Definition log (n : notice) (w : world) : world :=
  {| disk := disk w; write_error := write_error w;
     editing := editing w; ui := (ui w ++ [n])%list |}.

Definition write (todos : list task) (w : world) : world :=
  {| disk := Holds (JArray todos); write_error := write_error w;
     editing := editing w; ui := ui w |}.

Definition mark_editing (i : Z) (b : bool) (w : world) : world :=
  {| disk := disk w; write_error := write_error w;
     editing := <[i := b]> (editing w); ui := ui w |}.

Definition show (n : notice) : script unit := fun w => (Return tt, log n w).

Definition st_error (msg : string) : script unit := show (Error msg).
Definition st_success (msg : string) : script unit := show (Success msg).
Definition st_info (msg : string) : script unit := show (Info msg).
Definition st_rerun {A : Type} : script A := fun w => (Rerun, w).

(** [st.session_state[f"editing_{i}"] = b] *)
Definition set_editing (i : Z) (b : bool) : script unit := fun w =>
  (Return tt, mark_editing i b w).

(** ** The store *)

(** The text of the exception of a failed write, and the world it leaves. *)
Definition failure_text (f : write_failure) : string :=
  match f with OpenFails e => e | DumpFails e _ => e end.

Definition spoil (f : write_failure) (w : world) : world :=
  match f with
  | OpenFails _ => w
  | DumpFails _ torn =>
      {| disk := Undecodable torn; write_error := write_error w;
         editing := editing w; ui := ui w |}
  end.

(** [save_todos(todos)] *)
Definition save_todos (todos : list task) : script bool := fun w =>
  match write_error w with
  | None => (Return true, write todos w)
  | Some f =>
      (st_error ("Error saving todos: " ++ failure_text f) ;; mret false) (spoil f w)
  end.

(** [load_todos()] *)
Definition load_todos : script (list task) := fun w =>
  match disk w with
  | Holds data =>
      (Return (match data with JArray l => l | _ => [] end), w)
  | Absent => (save_todos [] ;; mret []) w
  | Undecodable e => (st_error ("Error loading todos: " ++ e) ;; mret []) w
  end.

(** [max(xs)] of a non-empty sequence whose first element is [x]. *)
Definition py_max (x : Z) (xs : list Z) : Z := fold_left Z.max xs x.

(** [get_next_id(todos)] *)
Definition get_next_id (todos : list task) : Z :=
  match todos with
  | [] => 1
  | t :: rest => py_max (get_id t) (map get_id rest) + 1
  end.

(** ** The input form ([render_todo_input]) *)

(** The body of [render_todo_input] once the form is filled in:
    [submitted] tells whether the submit button was pressed. *)
Definition render_todo_input (todo_title : string) (todo_priority : priority_choice)
    (todo_category : string) (submitted : bool) : script unit :=
  if submitted then
    if truthy (strip todo_title) then
      todos ← load_todos;
      let new_todo :=
        {| tid := Some (get_next_id todos);
           title := Some (strip todo_title);
           priority := Some (label todo_priority);
           category := Some (strip todo_category);
           completed := Some false |} in
      let todos := (todos ++ [new_todo])%list in
      ok ← save_todos todos;
      if ok : bool then st_success "To-Do added successfully!" ;; st_rerun
      else mret tt
    else st_error "Please enter a to-do title!"
  else mret tt.

(** ** The two list views ([render_todo_display], [render_completed_todos]) *)

(** [[t for t in todos if not t.get("completed", False)]] *)
Definition active_todos (todos : list task) : list task :=
  List.filter (fun t => negb (get_completed t)) todos.

(** [[t for t in todos if t.get("completed", False)]] *)
Definition completed_todos (todos : list task) : list task :=
  List.filter get_completed todos.

(** [t.get(key) in selection]: an absent key gives [None], which is in no
    selection of strings. *)
Definition selected (v : option string) (selection : list string) : bool :=
  match v with
  | Some s => existsb (String.eqb s) selection
  | None => false
  end.

(** [filtered_todos]: the two [if filter_...:] statements, applied to the
    list [todos] the view starts from ([active_todos] in one view,
    [completed_todos] in the other).  An empty selection is false and
    filters nothing.  This is the [filter_by] of the specification. *)
Definition filtered_todos (filter_category filter_priority : list string)
    (todos : list task) : list task :=
  let filtered_todos := todos in
  let filtered_todos :=
    match filter_category with
    | [] => filtered_todos
    | _ => List.filter (fun t => selected (category t) filter_category) filtered_todos
    end in
  let filtered_todos :=
    match filter_priority with
    | [] => filtered_todos
    | _ => List.filter (fun t => selected (priority t) filter_priority) filtered_todos
    end in
  filtered_todos.

(** [for t in todos: if t["id"] == target: body(t); break].  The tasks are
    visited in order; [t["id"]] raises [KeyError] on a task without the key;
    the first task with the id is updated and the loop stops. *)
Fixpoint update_first (target : Z) (body : task -> task) (todos : list task)
    : exn + list task :=
  match todos with
  | [] => inr []
  | t :: rest =>
      match tid t with
      | None => inl (KeyError "id")
      | Some i =>
          if i =? target then inr (body t :: rest)
          else match update_first target body rest with
               | inl e => inl e
               | inr rest' => inr (t :: rest')
               end
      end
  end.

(** [[t for t in todos if t["id"] != target]] *)
Fixpoint without (target : Z) (todos : list task) : exn + list task :=
  match todos with
  | [] => inr []
  | t :: rest =>
      match tid t with
      | None => inl (KeyError "id")
      | Some i =>
          match without target rest with
          | inl e => inl e
          | inr rest' => inr (if i =? target then rest' else t :: rest')
          end
      end
  end.

(** The statements under each button of a row, for the row of the task whose
    id is [target]; [todos] is the list the view loaded when it started. *)

(** "Mark as complete" *)
Definition complete_button (target : Z) (todos : list task) : script unit :=
  todos ← lift (update_first target (set_completed true) todos);
  save_todos todos ;; st_rerun.

(** "Mark as incomplete" *)
Definition undo_button (target : Z) (todos : list task) : script unit :=
  todos ← lift (update_first target (set_completed false) todos);
  save_todos todos ;; st_rerun.

(** "Edit" *)
Definition edit_button (target : Z) : script unit :=
  set_editing target true ;; st_rerun.

(** "Delete", in both views *)
Definition delete_button (target : Z) (todos : list task) : script unit :=
  todos ← lift (without target todos);
  save_todos todos ;; st_rerun.

(** "Save" of the edit form *)
Definition save_button (target : Z) (new_title new_category : string)
    (new_priority : priority_choice) (todos : list task) : script unit :=
  todos ← lift (update_first target
                  (set_fields (strip new_title) (strip new_category) (label new_priority))
                  todos);
  save_todos todos ;; set_editing target false ;; st_rerun.

(** "Cancel" of the edit form *)
Definition cancel_button (target : Z) : script unit :=
  set_editing target false ;; st_rerun.

(** [xs.index(x)]: the position of the first occurrence, [None] standing for
    the [ValueError] Python raises when there is none. *)
Fixpoint list_index (x : string) (xs : list string) : option nat :=
  match xs with
  | [] => None
  | y :: rest => if String.eqb y x then Some O
                 else option_map S (list_index x rest)
  end.

(** The options of the two priority select boxes, in their order. *)
Definition priority_options : list priority_choice := [Low; Medium; High].

(** The initial content of the edit form of a row: the [value] of the two
    text inputs and the [index] of the select box,
    [["Low", "Medium", "High"].index(todo.get("priority", "Low"))]. *)
Definition edit_form (todo : task) : exn + (string * string * nat) :=
  let new_title := default "" (title todo) in
  let new_category := default "" (category todo) in
  let shown := default "Low" (priority todo) in
  match list_index shown (map label priority_options) with
  | Some index => inr (new_title, new_category, index)
  | None => inl (ValueError shown)
  end.

(** The row of the active view whose buttons carry the id [target]: the
    first active task with that id.  The rows are told apart by the id, as
    the keys of their buttons and the flag of their form are. *)
Definition row (target : Z) (todos : list task) : option task :=
  List.find (fun t => match tid t with Some i => i =? target | None => false end)
    (active_todos todos).

(** "Save" pressed on the row of [target]: the edit form of the row is
    drawn first, and its "Save" button is read then.  When no active row
    carries the id there is no form to draw, and the statements under the
    button are run as they stand. *)
Definition edit_row (target : Z) (new_title new_category : string)
    (new_priority : priority_choice) (todos : list task) : script unit :=
  match row target todos with
  | Some todo =>
      lift (edit_form todo) ;;
      save_button target new_title new_category new_priority todos
  | None => save_button target new_title new_category new_priority todos
  end.

(** "Clear All Completed" *)
Definition clear_completed (todos : list task) : list task :=
  List.filter (fun t => negb (get_completed t)) todos.

Definition clear_button (todos : list task) : script unit :=
  let todos := clear_completed todos in
  save_todos todos ;; st_rerun.

(** ** Analytics ([render_analytics]) *)

(** [float(n)] for an integer [n]; exact below 2^53. *)
Definition float_of_Z (z : Z) : float :=
  if z <? 0 then PrimFloat.opp (PrimFloat.of_uint63 (Uint63.of_Z (- z)))
  else PrimFloat.of_uint63 (Uint63.of_Z z).

Definition float_of_nat (n : nat) : float := float_of_Z (Z.of_nat n).

(** The integer nearest to [num / den] ([0 <= num], [0 < den]), a tie going
    to the even neighbour. *)
Definition round_half_even (num den : Z) : Z :=
  let q := num / den in
  let r := num mod den in
  match 2 * r ?= den with
  | Lt => q
  | Gt => q + 1
  | Eq => if Z.even q then q else q + 1
  end.

(** [round(x, ndigits)] on a float, for [ndigits] from 0 to 15: CPython
    rounds the exact binary value of [x] to [ndigits] decimals, ties to even,
    and returns the float nearest to that decimal.  A float with no
    fractional bit is its own rounding; so is one whose scaled value has left
    the 53 bits in which integers are exact, the floats around it being
    further apart than the last decimal kept. *)
Definition py_round (x : float) (ndigits : nat) : float :=
  match Prim2SF x with
  | S754_finite s m e =>
      if 0 <=? e then x
      else
        let scale := 10 ^ Z.of_nat ndigits in
        let n := round_half_even (Zpos m * scale) (2 ^ (- e)) in
        if n <? 2 ^ 53 then
          let r := PrimFloat.div (float_of_Z n) (float_of_Z scale) in
          if s then PrimFloat.opp r else r
        else x
  | _ => x
  end.

(** [round((completed / total) * 100, 1)]: the quotient of two integers
    below 2^53 is the quotient of their floats. *)
Definition completion_rate (completed total : nat) : float :=
  py_round (PrimFloat.mul (PrimFloat.div (float_of_nat completed) (float_of_nat total))
                          (float_of_Z 100)) 1.

(** [Series.value_counts()]: the number of occurrences of each value present. *)
Definition value_counts (values : list string) : gmap string nat :=
  foldr (fun v counts => <[v := S (default 0%nat (counts !! v))]> counts) ∅ values.

(** [[t.get("priority", "Low") for t in todos]] *)
Definition priority_column (todos : list task) : list string :=
  map (fun t => default "Low" (priority t)) todos.

(** [[t.get("category", "Uncategorized") or "Uncategorized" for t in todos]] *)
Definition category_column (todos : list task) : list string :=
  map (fun t => let c := default "Uncategorized" (category t) in
                if truthy c then c else "Uncategorized") todos.

(** [["Completed" if t.get("completed") else "Active" for t in todos]] *)
Definition status_column (todos : list task) : list string :=
  map (fun t => if default false (completed t) then "Completed" else "Active") todos.

Definition is_nil {A : Type} (l : list A) : bool :=
  match l with [] => true | _ => false end.

(** [render_analytics()] *)
Definition render_analytics : script unit :=
  todos ← load_todos;
  if is_nil todos then st_info "No to-dos to analyze yet!"
  else
    show (Metric "Total To-Dos" (Count (length todos))) ;;
    let completed := length (List.filter get_completed todos) in
    show (Metric "Completed" (Count completed)) ;;
    show (Metric "Remaining" (Count (length todos - completed))) ;;
    (if (0 <? length todos)%nat
     then show (Metric "Completion Rate" (Percent (completion_rate completed (length todos))))
     else mret tt) ;;
    show (Chart "To-Dos by Priority" (value_counts (priority_column todos))) ;;
    let categories := category_column todos in
    (if is_nil categories then mret tt
     else show (Chart "To-Dos by Category" (value_counts categories))) ;;
    show (Chart "Completion Status" (value_counts (status_column todos))).

(** The height of the bar of the priority chart for the value [p]; a value
    with no bar counts for 0. *)
Definition counted (todos : list task) (p : string) : nat :=
  default 0%nat (value_counts (priority_column todos) !! p).

(** The completion rate a run reported, if it reported one. *)
Fixpoint reported_rate (log : list notice) : option float :=
  match log with
  | [] => None
  | Metric "Completion Rate" (Percent r) :: _ => Some r
  | _ :: rest => reported_rate rest
  end.

(** ** Operations: one user action, one run of the script *)

Inductive op : Type :=
  | Add (todo_title : string) (todo_priority : priority_choice) (todo_category : string)
  | Complete (target : Z)
  | Uncomplete (target : Z)
  | Edit (target : Z) (new_title new_category : string) (new_priority : priority_choice)
  | Delete (target : Z)
  | ClearCompleted.

(** One press.  Each view loads the collection when it starts; the
    statements under the button pressed then run on the list it loaded.  The
    button is taken to be on the page and the rows drawn before it to raise
    nothing; for "Save", the edit form of its row is drawn first. *)
Definition perform (o : op) : script unit :=
  match o with
  | Add todo_title todo_priority todo_category =>
      render_todo_input todo_title todo_priority todo_category true
  | Complete target => todos ← load_todos; complete_button target todos
  | Uncomplete target => todos ← load_todos; undo_button target todos
  | Edit target new_title new_category new_priority =>
      todos ← load_todos; edit_row target new_title new_category new_priority todos
  | Delete target => todos ← load_todos; delete_button target todos
  | ClearCompleted => todos ← load_todos; clear_button todos
  end.

Definition exec (o : op) (w : world) : world := snd (perform o w).

Definition run (ops : list op) (w : world) : world := fold_left (fun w o => exec o w) ops w.

(** The collection a view would load from the file. *)
Definition stored (w : world) : list task :=
  match disk w with
  | Holds (JArray l) => l
  | _ => []
  end.

(** The id an [Add] assigns: [Some] of it when the title passes validation. *)
Definition assigned (o : op) (w : world) : option Z :=
  match o with
  | Add todo_title _ _ =>
      if truthy (strip todo_title) then Some (get_next_id (stored w)) else None
  | _ => None
  end.

(** The ids assigned along a sequence of operations, oldest first. *)
Fixpoint assigned_ids (ops : list op) (w : world) : list Z :=
  match ops with
  | [] => []
  | o :: rest =>
      match assigned o w with
      | Some i => i :: assigned_ids rest (exec o w)
      | None => assigned_ids rest (exec o w)
      end
  end.

(** The world a view runs in once it has loaded the collection. *)
Definition loaded (w : world) : world := snd (load_todos w).

(** ** Well-formed collections *)

(** The task carries the key ["id"]. *)
Definition has_id (t : task) : bool :=
  match tid t with Some _ => true | None => false end.

(** Every task of the collection carries an id, as every task the
    application creates does. *)
Definition keyed (todos : list task) : bool := forallb has_id todos.

(** The ids of the collection, as [get_next_id] reads them. *)
Definition ids (todos : list task) : list Z := map get_id todos.

(** All ids are pairwise distinct. *)
Definition unique_ids (todos : list task) : Prop := NoDup (ids todos).

(** How one run of the script may change the stored collection: not at all,
    by one task appended with the next id, by an update that keeps every id
    in place, or by the removal of some tasks. *)
Inductive change : list task -> list task -> Prop :=
  | Unchanged (l : list task) : change l l
  | Appended (l : list task) (t : task) :
      tid t = Some (get_next_id l) -> change l (l ++ [t])
  | Updated (l l' : list task) : map tid l' = map tid l -> change l l'
  | Filtered (l : list task) (keep : task -> bool) : change l (List.filter keep l).

(** ** Sample worlds and collections *)

(** A world whose file holds [todos] and can be written. *)
Definition world_of (todos : list task) : world :=
  {| disk := Holds (JArray todos); write_error := None; editing := ∅; ui := [] |}.

(** A world whose file holds the JSON string ["not a list"]. *)
Definition string_world : world :=
  {| disk := Holds (JString "not a list"); write_error := None; editing := ∅; ui := [] |}.

(** A world whose file is not valid JSON. *)
Definition garbled_world : world :=
  {| disk := Undecodable "Expecting value: line 1 column 1 (char 0)";
     write_error := None; editing := ∅; ui := [] |}.

(** A task as the application writes it. *)
Definition item (i : Z) (name : string) (p : priority_choice) (c : string) (done : bool) : task :=
  {| tid := Some i; title := Some name; priority := Some (label p);
     category := Some c; completed := Some done |}.

(** Add a task, delete it, add another one. *)
Definition reuse_ops : list op :=
  [Add "first" Low ""; Delete 1; Add "second" High "Home"].

(** The three tasks of the filter example: only a category and a priority. *)
Definition work_high : task :=
  {| tid := None; title := None; priority := Some "High";
     category := Some "Work"; completed := None |}.

(** A task whose priority is none of the three the form offers. *)
Definition urgent_task : task :=
  {| tid := Some 1; title := Some "call back"; priority := Some "Urgent";
     category := Some ""; completed := Some false |}.

(** A task stored without a priority. *)
Definition plain_task : task :=
  {| tid := Some 2; title := Some "tidy up"; priority := None;
     category := Some ""; completed := Some false |}.

(** Three tasks with the ids 1, 2 and 3. *)
Definition three_items : list task :=
  [item 1 "a" Low "" false; item 2 "b" High "" false; item 3 "c" Low "" true].

(** Two tasks with the ids 1 and 2. *)
Definition two_items : list task :=
  [item 1 "a" Low "" false; item 2 "b" High "Work" true].

(** Four tasks, one of them completed. *)
Definition four_tasks : list task :=
  [item 1 "a" Low "" false; item 2 "b" High "Work" true;
   item 3 "c" Medium "" false; item 4 "d" Low "Home" false].

(** ** More of the views *)

(** Truth value of [t.get(key)] for a text key: an absent key gives [None]
    and an empty string is false. *)
Definition truthy_field (v : option string) : bool :=
  match v with Some s => truthy s | None => false end.

(** [set([t.get("category", "") for t in todos if t.get("category")])]: the
    options of the category filter of a view ([todos] is [active_todos] in
    one view and [completed_todos] in the other).  The source turns the set
    into a list, in the order Python gives the set. *)
Definition category_options (todos : list task) : gset string :=
  list_to_set (map (fun t => default "" (category t))
                 (List.filter (fun t => truthy_field (category t)) todos)).

(** [priority_color], and [priority_emoji] with each emoji as its UTF-8
    bytes. *)
Definition priority_color : gmap string string :=
  <["High" := "priority-high"]> (<["Medium" := "priority-medium"]>
    (<["Low" := "priority-low"]> ∅)).

Definition priority_emoji : gmap string string :=
  <["High" := "🔴"]> (<["Medium" := "🟡"]> (<["Low" := "🟢"]> ∅)).

(** What the card of a row is filled with. *)
Record card : Type := Card {
  card_title : string;      (* todo.get('title', 'Untitled') *)
  card_category : string;   (* todo.get('category') or 'Uncategorized' *)
  card_class : string;      (* priority_color.get(priority, 'priority-low') *)
  card_emoji : string;      (* priority_emoji.get(priority, green) *)
  card_priority : string    (* priority = todo.get("priority", "Low") *)
}.

Definition render_card (todo : task) : card :=
  let priority := default "Low" (priority todo) in
  {| card_title := default "Untitled" (title todo);
     card_category := if truthy_field (category todo)
                      then default "" (category todo) else "Uncategorized";
     card_class := default "priority-low" (priority_color !! priority);
     card_emoji := default "🟢" (priority_emoji !! priority);
     card_priority := priority |}.

(** ** More on collections *)

(** The text is already trimmed. *)
Definition trimmed (s : string) : bool := String.eqb (strip s) s.

(** A task as the input form and the edit form leave it: the five keys are
    present, the id is positive, the title and the category are trimmed and
    the priority is one of the three options. *)
Definition well_formed (t : task) : bool :=
  match tid t, title t, priority t, category t, completed t with
  | Some i, Some a, Some p, Some c, Some _ =>
      (1 <=? i) && trimmed a && trimmed c
      && existsb (String.eqb p) (map label priority_options)
  | _, _, _, _, _ => false
  end.

(** Where a task of the collection stored after a run comes from: it was
    there, or it is one that was there with [completed] set, or with the
    three fields of the edit form set, or it is the task the input form
    creates. *)
Inductive origin (l : list task) : task -> Prop :=
  | Kept (t : task) : In t l -> origin l t
  | Toggled (t : task) (v : bool) : In t l -> origin l (set_completed v t)
  | Edited (t : task) (a c : string) (p : priority_choice) :
      In t l -> origin l (set_fields (strip a) (strip c) (label p) t)
  | Created (a c : string) (p : priority_choice) :
      strip a <> "" ->
      origin l {| tid := Some (get_next_id l); title := Some (strip a);
                  priority := Some (label p); category := Some (strip c);
                  completed := Some false |}.

(** What a failed write makes of a file that held [d]. *)
Definition torn_disk (f : write_failure) (d : file) : file :=
  match f with
  | OpenFails _ => d
  | DumpFails _ torn => Undecodable torn
  end.

(** What a run can make of the world [w] when writing fails with [f]: the
    file is as it was or as the failed write leaves it, and the notices
    added are errors. *)
Definition failed_run (f : write_failure) (w v : world) : Prop :=
  (disk v = disk w \/ disk v = torn_disk f (disk w))
  /\ exists errs, ui v = (ui w ++ map Error errs)%list.

(** A collection of [total] tasks, the first [completed] of them
    completed. *)
Definition batch (completed total : nat) : list task :=
  map (fun i => item (Z.of_nat i) "task" Low "" (i <=? completed)%nat) (seq 1 total).

(** The float of a number of tenths: [k / 10]. *)
Definition tenths (k : Z) : float := PrimFloat.div (float_of_Z k) (float_of_Z 10).

(** The completion rate as the specification words it, in tenths of a
    percent: the exact percentage [100 * c / n] rounded to one decimal, a
    tie going to the even neighbour. *)
Definition exact_tenths (c n : nat) : Z :=
  round_half_even (1000 * Z.of_nat c) (Z.of_nat n).

(** The collections of at most 200 tasks for which the rate shown is not
    the exact percentage rounded: completed, total, and the tenths shown. *)
Definition off_by_a_tenth : list (nat * nat * Z) :=
  [(23%nat, 80%nat, 287); (49%nat, 80%nat, 613); (51%nat, 80%nat, 637);
   (46%nat, 160%nat, 287); (98%nat, 160%nat, 613); (102%nat, 160%nat, 637)].

Definition shown_tenths (c n : nat) : Z :=
  match List.find (fun row => (fst (fst row) =? c)%nat && (snd (fst row) =? n)%nat)
                  off_by_a_tenth with
  | Some row => snd row
  | None => exact_tenths c n
  end.

(** Equality of the representations of two floats. *)
Definition sf_same (a b : spec_float) : bool :=
  match a, b with
  | S754_zero s, S754_zero s' => Bool.eqb s s'
  | S754_infinity s, S754_infinity s' => Bool.eqb s s'
  | S754_nan, S754_nan => true
  | S754_finite s m e, S754_finite s' m' e' => Bool.eqb s s' && Pos.eqb m m' && Z.eqb e e'
  | _, _ => false
  end.

Definition rate_is_shown (c n : nat) : bool :=
  sf_same (Prim2SF (completion_rate c n)) (Prim2SF (tenths (shown_tenths c n))).

(** An operation that takes tasks out of the collection. *)
Definition removes (o : op) : bool :=
  match o with
  | Delete _ | ClearCompleted => true
  | _ => false
  end.

(** The sum of the bars of a histogram. *)
Definition bars (counts : gmap string nat) : nat :=
  map_fold (fun _ n total => (n + total)%nat) 0%nat counts.

(** * Properties *)

(** ** Text *)

Section Text.

Lemma truthy_false (s : string) : truthy s = false <-> s = "".
Proof. destruct s; simpl; split; congruence. Qed.

Lemma truthy_true (s : string) : truthy s = true <-> s <> "".
Proof. destruct s; simpl; split; congruence. Qed.

Lemma blank_lstrip (s : string) : blank (lstrip s) = blank s.
Proof.
  induction s as [|c s IH]; simpl; [reflexivity|].
  destruct (isspace c) eqn:Hc; simpl; [exact IH | now rewrite Hc].
Qed.

Lemma rstrip_empty (s : string) : rstrip s = "" <-> blank s = true.
Proof.
  induction s as [|c s IH]; simpl; [tauto|].
  destruct (rstrip s) eqn:Hr, (isspace c) eqn:Hc; simpl; split;
    try congruence; intros H.
  - now apply IH.
  - apply IH in H. congruence.
Qed.

(** The trimmed form is empty exactly for the strings made of whitespace. *)
Lemma strip_empty (s : string) : strip s = "" <-> blank s = true.
Proof. unfold strip. now rewrite rstrip_empty, blank_lstrip. Qed.

End Text.

(** ** The store *)

Section Store.

Lemma bind_run {A B : Type} (m : script A) (f : A -> script B) (w : world) :
  (m ≫= f) w =
  match m w with
  | (Return a, w') => f a w'
  | (Rerun, w') => (Rerun, w')
  | (Raise e, w') => (Raise e, w')
  end.
Proof. reflexivity. Qed.

Lemma save_todos_ok (todos : list task) (w : world) :
  write_error w = None -> save_todos todos w = (Return true, write todos w).
Proof. intros H. unfold save_todos. now rewrite H. Qed.

Lemma save_todos_fails (todos : list task) (w : world) (f : write_failure) :
  write_error w = Some f ->
  save_todos todos w
  = (Return false, log (Error ("Error saving todos: " ++ failure_text f)) (spoil f w)).
Proof. intros H. unfold save_todos. now rewrite H. Qed.

(** A failed write leaves nothing that decodes, or the file as it was. *)
Lemma stored_spoil (f : write_failure) (w : world) :
  stored (spoil f w) = stored w \/ stored (spoil f w) = [].
Proof. destruct f; [now left | now right]. Qed.

Lemma write_error_spoil (f : write_failure) (w : world) :
  write_error (spoil f w) = write_error w.
Proof. now destruct f. Qed.

(** [load_todos] always returns, and returns the stored collection. *)
Lemma load_todos_returns (w : world) :
  load_todos w = (Return (stored w), loaded w).
Proof.
  unfold loaded, stored, load_todos.
  destruct (disk w) as [|e|data] eqn:Hd.
  - rewrite bind_run. unfold save_todos.
    destruct (write_error w); reflexivity.
  - reflexivity.
  - destruct data; reflexivity.
Qed.

Lemma loaded_stored (w : world) : stored (loaded w) = stored w.
Proof.
  unfold loaded, stored, load_todos.
  destruct (disk w) as [|e|data] eqn:Hd; simpl.
  - rewrite bind_run. unfold save_todos.
    destruct (write_error w) as [[x|x y]|]; simpl; [now rewrite Hd | reflexivity..].
  - now rewrite Hd.
  - now rewrite Hd.
Qed.

Lemma loaded_write_error (w : world) : write_error (loaded w) = write_error w.
Proof.
  unfold loaded, load_todos.
  destruct (disk w) as [|e|data]; simpl; try reflexivity.
  rewrite bind_run. unfold save_todos.
  destruct (write_error w) as [[x|x y]|] eqn:He; simpl; congruence.
Qed.

Lemma loaded_holds (w : world) (todos : list task) :
  disk w = Holds (JArray todos) -> loaded w = w.
Proof. intros H. unfold loaded, load_todos. now rewrite H. Qed.

Lemma stored_write (todos : list task) (w : world) : stored (write todos w) = todos.
Proof. reflexivity. Qed.

Lemma stored_log (n : notice) (w : world) : stored (log n w) = stored w.
Proof. reflexivity. Qed.

Lemma stored_mark_editing (i : Z) (b : bool) (w : world) :
  stored (mark_editing i b w) = stored w.
Proof. reflexivity. Qed.

End Store.

(** ** Ids *)

Section Ids.

Implicit Types (todos : list task) (t : task).

Lemma py_max_bounds (xs : list Z) (x : Z) :
  x <= py_max x xs /\ Forall (fun y => y <= py_max x xs) xs.
Proof.
  unfold py_max. revert x.
  induction xs as [|y ys IH]; intros x; simpl.
  - split; [lia | constructor].
  - destruct (IH (Z.max x y)) as [H1 H2].
    split; [lia|]. constructor; [lia | exact H2].
Qed.

Lemma py_max_attained (xs : list Z) (x : Z) : In (py_max x xs) (x :: xs).
Proof.
  unfold py_max. revert x.
  induction xs as [|y ys IH]; intros x; simpl; [now left|].
  destruct (IH (Z.max x y)) as [H|H].
  - rewrite <- H. destruct (Z.max_spec x y) as [[_ E]|[_ E]]; rewrite E; auto.
  - auto.
Qed.

(** The next id is above every id of the collection. *)
Lemma get_next_id_above (todos : list task) (t : task) :
  In t todos -> get_id t < get_next_id todos.
Proof.
  destruct todos as [|t0 rest]; simpl; [tauto|].
  destruct (py_max_bounds (map get_id rest) (get_id t0)) as [H1 H2].
  intros [<-|Hin]; [lia|].
  rewrite List.Forall_forall in H2.
  specialize (H2 (get_id t)). rewrite in_map_iff in H2.
  assert (get_id t <= py_max (get_id t0) (map get_id rest)) by eauto.
  lia.
Qed.

Lemma get_next_id_fresh (todos : list task) : ~ In (get_next_id todos) (ids todos).
Proof.
  unfold ids. rewrite in_map_iff. intros (t & E & Hin).
  apply get_next_id_above in Hin. lia.
Qed.

Lemma unique_ids_snoc (todos : list task) (t : task) :
  unique_ids todos -> ~ In (get_id t) (ids todos) -> unique_ids (todos ++ [t]).
Proof.
  unfold unique_ids, ids. intros Hu Hn. rewrite map_app. simpl.
  apply NoDup_app. split; [exact Hu|]. split; [|apply NoDup_singleton].
  intros x Hx Hx'. apply list_elem_of_In in Hx, Hx'.
  destruct Hx' as [<-|[]]. contradiction.
Qed.

Lemma update_first_ids (target : Z) (body : task -> task) (todos todos' : list task) :
  (forall t, tid (body t) = tid t) ->
  update_first target body todos = inr todos' -> map tid todos' = map tid todos.
Proof.
  intros Hbody. revert todos'.
  induction todos as [|t rest IH]; intros todos'; simpl.
  - now intros [= <-].
  - destruct (tid t) as [i|] eqn:Hi; [|discriminate].
    destruct (i =? target).
    + intros [= <-]. simpl. now rewrite Hbody, Hi.
    + destruct (update_first target body rest) as [e|rest']; [discriminate|].
      intros [= <-]. simpl. now rewrite (IH rest'), Hi.
Qed.

Lemma ids_tid (l l' : list task) : map tid l = map tid l' -> ids l = ids l'.
Proof.
  unfold ids, get_id. intros H.
  rewrite <- (map_map tid (default 0) l), <- (map_map tid (default 0) l').
  now rewrite H.
Qed.

Lemma without_filter (target : Z) (todos todos' : list task) :
  without target todos = inr todos' ->
  todos' = List.filter (fun t => negb (get_id t =? target)) todos.
Proof.
  revert todos'.
  induction todos as [|t rest IH]; intros todos'; simpl.
  - now intros [= <-].
  - unfold get_id at 1. destruct (tid t) as [i|]; [|discriminate]. simpl.
    destruct (without target rest) as [e|rest']; [discriminate|].
    intros [= <-]. rewrite <- (IH rest' eq_refl).
    now destruct (i =? target).
Qed.

Lemma unique_ids_filter (keep : task -> bool) (todos : list task) :
  unique_ids todos -> unique_ids (List.filter keep todos).
Proof.
  unfold unique_ids, ids.
  induction todos as [|t rest IH]; simpl; [trivial|].
  rewrite NoDup_cons. intros [Hn Hu].
  destruct (keep t); simpl; [|auto].
  apply NoDup_cons. split; [|auto].
  intros Hin. apply Hn. apply list_elem_of_In. apply list_elem_of_In in Hin.
  apply in_map_iff in Hin as (t' & E & Hin).
  apply filter_In in Hin as [Hin _].
  apply in_map_iff. eauto.
Qed.

End Ids.

(** ** One run of the script *)

Section Runs.

(** What a button leaves in the file: the list it computed, provided
    there is one and the write succeeds; otherwise the file is as it was, or
    holds nothing that decodes when the write failed half way. *)
Lemma button_stored (r : exn + list task) (k : script unit) (w : world) :
  (forall w', stored (snd (k w')) = stored w') ->
  let w' := snd ((todos ← lift r; save_todos todos ;; k) w) in
  stored w' = stored w \/ stored w' = [] \/
  exists todos, r = inr todos /\ write_error w = None /\ stored w' = todos.
Proof.
  intros Hk. simpl. rewrite bind_run.
  destruct r as [e|todos]; simpl; [now left|].
  rewrite bind_run. unfold save_todos.
  destruct (write_error w) as [f|] eqn:He; simpl.
  - rewrite Hk, stored_log. destruct (stored_spoil f w) as [E|E]; rewrite E; auto.
  - right. right. exists todos. now rewrite Hk.
Qed.

(** The same when the file can be written. *)
Lemma button_stored_ok (r : exn + list task) (k : script unit) (w : world) :
  (forall w', stored (snd (k w')) = stored w') ->
  write_error w = None ->
  let w' := snd ((todos ← lift r; save_todos todos ;; k) w) in
  match r with
  | inl _ => stored w' = stored w
  | inr todos => stored w' = todos
  end.
Proof.
  intros Hk He. simpl. rewrite bind_run.
  destruct r as [e|todos]; simpl; [reflexivity|].
  rewrite bind_run, save_todos_ok by exact He. cbv beta iota.
  now rewrite Hk.
Qed.

Lemma rerun_stored (w : world) : stored (snd (@st_rerun unit w)) = stored w.
Proof. reflexivity. Qed.

Lemma editing_rerun_stored (i : Z) (b : bool) (w : world) :
  stored (snd ((set_editing i b ;; @st_rerun unit) w)) = stored w.
Proof. reflexivity. Qed.

(** A view first loads, then runs the button on what it loaded. *)
Lemma view_run (button : list task -> script unit) (w : world) :
  (todos ← load_todos; button todos) w = button (stored w) (loaded w).
Proof. rewrite bind_run. now rewrite load_todos_returns. Qed.

(** The edit form raises [ValueError] only. *)
Lemma edit_form_error (todo : task) (e : exn) :
  edit_form todo = inl e -> e = ValueError (default "Low" (priority todo)).
Proof.
  unfold edit_form. cbv zeta.
  destruct (list_index _ _); [discriminate | now intros [= <-]].
Qed.

(** "Save": the form of the row is drawn, which may raise, and the button
    then runs. *)
Lemma edit_row_cases (target : Z) (nt nc : string) (np : priority_choice)
    (todos : list task) (v : world) :
  edit_row target nt nc np todos v = save_button target nt nc np todos v
  \/ exists todo x,
       row target todos = Some todo /\ edit_form todo = inl (ValueError x)
       /\ edit_row target nt nc np todos v = (Raise (ValueError x), v).
Proof.
  unfold edit_row. destruct (row target todos) as [todo|]; [|now left].
  destruct (edit_form todo) as [e|form] eqn:Ef.
  - right. exists todo, (default "Low" (priority todo)).
    pose proof (edit_form_error todo e Ef) as ->.
    split; [reflexivity|]. split; [exact Ef | reflexivity].
  - left. reflexivity.
Qed.

Lemma add_run_blank (todo_title : string) (p : priority_choice) (c : string) (w : world) :
  strip todo_title = "" ->
  render_todo_input todo_title p c true w
  = (Return tt, log (Error "Please enter a to-do title!") w).
Proof. intros H. unfold render_todo_input. now rewrite H. Qed.

(** The task [render_todo_input] builds for the collection [todos]. *)
Lemma add_run (todo_title : string) (p : priority_choice) (c : string) (w : world) :
  strip todo_title <> "" ->
  render_todo_input todo_title p c true w
  = let new_todo := {| tid := Some (get_next_id (stored w));
                       title := Some (strip todo_title);
                       priority := Some (label p);
                       category := Some (strip c);
                       completed := Some false |} in
    match write_error w with
    | None => (Rerun, log (Success "To-Do added successfully!")
                          (write (stored w ++ [new_todo])%list (loaded w)))
    | Some f => (Return tt, log (Error ("Error saving todos: " ++ failure_text f))
                              (spoil f (loaded w)))
    end.
Proof.
  intros H. apply truthy_true in H. unfold render_todo_input. rewrite H.
  rewrite bind_run, load_todos_returns. simpl. rewrite bind_run.
  unfold save_todos. rewrite loaded_write_error.
  destruct (write_error w); reflexivity.
Qed.

Lemma change_nil (l : list task) : change l [].
Proof.
  replace (@nil task) with (List.filter (fun _ => false) l); [apply Filtered|].
  induction l; simpl; auto.
Qed.

(** The collection after a failed write. *)
Lemma change_spoil (f : write_failure) (w : world) :
  change (stored w) (stored (spoil f (loaded w))).
Proof.
  destruct (stored_spoil f (loaded w)) as [E|E]; rewrite E.
  - rewrite loaded_stored. apply Unchanged.
  - apply change_nil.
Qed.

(** Every operation changes the stored collection in one of the four ways
    of [change]. *)
Lemma exec_change (o : op) (w : world) : change (stored w) (stored (exec o w)).
Proof.
  assert (Hb : forall (body : task -> task) (target : Z) (k : script unit),
             (forall t, tid (body t) = tid t) ->
             (forall v, stored (snd (k v)) = stored v) ->
             change (stored w)
               (stored (snd ((todos ← lift (update_first target body (stored w));
                              save_todos todos ;; k) (loaded w))))).
  { intros body target k Hbody Hk.
    destruct (button_stored (update_first target body (stored w)) k (loaded w) Hk)
      as [E|[E|(l & E1 & _ & E2)]]; simpl in *; rewrite ?E, ?E2, ?loaded_stored.
    - apply Unchanged.
    - apply change_nil.
    - apply Updated. eapply update_first_ids; [exact Hbody | exact E1]. }
  unfold exec.
  destruct o as [ttl p c|target|target|target nt nc np|target|]; cbn [perform].
  - destruct (string_dec (strip ttl) "") as [E|E].
    + rewrite add_run_blank by exact E. apply Unchanged.
    + rewrite add_run by exact E. cbv zeta.
      destruct (write_error w) as [f|]; cbn [snd].
      * rewrite stored_log. apply change_spoil.
      * now apply Appended.
  - rewrite view_run. now apply (Hb _ target (@st_rerun unit)).
  - rewrite view_run. now apply (Hb _ target (@st_rerun unit)).
  - rewrite view_run.
    destruct (edit_row_cases target nt nc np (stored w) (loaded w))
      as [->|(todo & x & _ & _ & ->)].
    + now apply (Hb _ target (set_editing target false ;; @st_rerun unit)).
    + cbn [snd]. rewrite loaded_stored. apply Unchanged.
  - rewrite view_run. unfold delete_button.
    destruct (button_stored (without target (stored w))
                (@st_rerun unit) (loaded w) rerun_stored) as [E|[E|(l & E1 & _ & E2)]];
      simpl in *; rewrite ?E, ?E2, ?loaded_stored.
    + apply Unchanged.
    + apply change_nil.
    + rewrite (without_filter _ _ _ E1). apply Filtered.
  - rewrite view_run. unfold clear_button. cbv zeta. rewrite bind_run.
    destruct (write_error w) as [f|] eqn:Hw.
    + rewrite (save_todos_fails _ _ f) by now rewrite loaded_write_error.
      cbv beta iota. unfold st_rerun. cbn [snd].
      rewrite stored_log. apply change_spoil.
    + rewrite save_todos_ok by now rewrite loaded_write_error.
      apply Filtered.
Qed.

(** A property of collections that every change preserves holds along
    every sequence of operations. *)
Lemma run_invariant (P : list task -> Prop) (ops : list op) (w : world) :
  (forall l l', change l l' -> P l -> P l') ->
  P (stored w) -> P (stored (run ops w)).
Proof.
  intros Hstep. unfold run. revert w.
  induction ops as [|o ops IH]; intros w HP; simpl; [exact HP|].
  apply IH. exact (Hstep _ _ (exec_change o w) HP).
Qed.

Lemma change_unique (l l' : list task) : change l l' -> unique_ids l -> unique_ids l'.
Proof.
  intros [l0|l0 t Ht|l0 l1 E|l0 keep] Hu.
  - exact Hu.
  - apply unique_ids_snoc; [exact Hu|].
    unfold get_id. rewrite Ht. apply get_next_id_fresh.
  - unfold unique_ids. now rewrite (ids_tid l1 l0 E).
  - now apply unique_ids_filter.
Qed.

Lemma keyed_tid (l l' : list task) : map tid l' = map tid l -> keyed l' = keyed l.
Proof.
  unfold keyed. revert l'.
  induction l as [|t l IH]; intros [|t' l']; simpl; try discriminate; [reflexivity|].
  intros [= Ht E]. unfold has_id at 1 3. now rewrite Ht, (IH l' E).
Qed.

Lemma change_keyed (l l' : list task) : change l l' -> keyed l = true -> keyed l' = true.
Proof.
  intros [l0|l0 t Ht|l0 l1 E|l0 keep] Hk.
  - exact Hk.
  - unfold keyed in *. rewrite forallb_app, Hk. simpl.
    unfold has_id. now rewrite Ht.
  - now rewrite (keyed_tid l0 l1 E).
  - unfold keyed in *. rewrite forallb_forall in *.
    intros t Hin. apply filter_In in Hin as [Hin _]. now apply Hk.
Qed.

Lemma exec_unique (o : op) (w : world) :
  unique_ids (stored w) -> unique_ids (stored (exec o w)).
Proof. apply change_unique, exec_change. Qed.

Lemma run_unique (ops : list op) (w : world) :
  unique_ids (stored w) -> unique_ids (stored (run ops w)).
Proof. apply (run_invariant unique_ids). exact change_unique. Qed.

(** Every task the application stores carries an id: starting from a
    collection where all do, no sequence of operations stores one without. *)
Lemma run_keyed (ops : list op) (w : world) :
  keyed (stored w) = true -> keyed (stored (run ops w)) = true.
Proof. apply (run_invariant (fun l => keyed l = true)). exact change_keyed. Qed.

(** The id [assigned] announces is the id of the task the add appends. *)
Lemma assigned_appended (o : op) (w : world) (i : Z) :
  assigned o w = Some i -> write_error w = None ->
  exists t, tid t = Some i /\ stored (exec o w) = (stored w ++ [t])%list.
Proof.
  destruct o as [ttl p c| | | | |]; simpl; try discriminate.
  destruct (truthy (strip ttl)) eqn:Ht; [|discriminate].
  intros [= <-] Hw. apply truthy_true in Ht.
  unfold exec. cbn [perform]. rewrite add_run by exact Ht. rewrite Hw. cbv zeta.
  eexists. split; [|reflexivity]. reflexivity.
Qed.

Lemma ids_app (l l' : list task) : ids (l ++ l') = (ids l ++ ids l')%list.
Proof. unfold ids. apply map_app. Qed.

Lemma ids_above (todos : list task) (i : Z) : In i (ids todos) -> i < get_next_id todos.
Proof.
  unfold ids. rewrite in_map_iff. intros (t & <- & Hin). now apply get_next_id_above.
Qed.

Lemma exec_write_error (o : op) (w : world) : write_error (exec o w) = write_error w.
Proof.
  assert (Hb : forall (r : exn + list task) (k : script unit) (v : world),
             (forall v', write_error (snd (k v')) = write_error v') ->
             write_error (snd ((todos ← lift r; save_todos todos ;; k) v)) = write_error v).
  { intros r k v Hk. rewrite bind_run. destruct r as [e|l]; simpl; [reflexivity|].
    rewrite bind_run. unfold save_todos.
    destruct (write_error v) as [f|] eqn:He; simpl; rewrite Hk; simpl;
      [now rewrite write_error_spoil | exact He]. }
  unfold exec.
  destruct o as [ttl p c|target|target|target nt nc np|target|]; cbn [perform].
  - destruct (string_dec (strip ttl) "") as [E|E].
    + now rewrite add_run_blank.
    + rewrite add_run by exact E.
      destruct (write_error w) as [f|] eqn:He; simpl;
        rewrite ?write_error_spoil; now rewrite loaded_write_error.
  - rewrite view_run. unfold complete_button. rewrite Hb; [apply loaded_write_error|reflexivity].
  - rewrite view_run. unfold undo_button. rewrite Hb; [apply loaded_write_error|reflexivity].
  - rewrite view_run.
    destruct (edit_row_cases target nt nc np (stored w) (loaded w))
      as [->|(todo & x & _ & _ & ->)]; [|apply loaded_write_error].
    unfold save_button. rewrite Hb; [apply loaded_write_error|reflexivity].
  - rewrite view_run. unfold delete_button. rewrite Hb; [apply loaded_write_error|reflexivity].
  - rewrite view_run. unfold clear_button. cbv zeta. rewrite bind_run.
    unfold save_todos. rewrite loaded_write_error.
    destruct (write_error w) as [f|] eqn:He; simpl;
      rewrite ?write_error_spoil; now rewrite loaded_write_error.
Qed.

Lemma run_write_error (ops : list op) (w : world) : write_error (run ops w) = write_error w.
Proof.
  unfold run. revert w.
  induction ops as [|o ops IH]; intros w; simpl; [reflexivity|].
  now rewrite IH, exec_write_error.
Qed.

(** An operation that removes nothing keeps every id of the collection. *)
Lemma exec_keeps_ids (o : op) (w : world) (i : Z) :
  write_error w = None ->
  removes o = false -> In i (ids (stored w)) -> In i (ids (stored (exec o w))).
Proof.
  intros Hw Hr Hin.
  assert (Hw' : write_error (loaded w) = None) by now rewrite loaded_write_error.
  assert (Hb : forall (body : task -> task) (target : Z) (k : script unit),
             (forall t, tid (body t) = tid t) ->
             (forall v, stored (snd (k v)) = stored v) ->
             In i (ids (stored (snd ((todos ← lift (update_first target body (stored w));
                                      save_todos todos ;; k) (loaded w)))))).
  { intros body target k Hbody Hk.
    pose proof (button_stored_ok (update_first target body (stored w)) k (loaded w) Hk Hw')
      as E. cbv zeta in E.
    destruct (update_first target body (stored w)) as [x|l] eqn:E1; rewrite E.
    - now rewrite loaded_stored.
    - rewrite (ids_tid l (stored w)); [exact Hin|].
      eapply update_first_ids; [exact Hbody | exact E1]. }
  unfold exec.
  destruct o as [ttl p c|target|target|target nt nc np|target|]; cbn [perform];
    try discriminate Hr.
  - destruct (string_dec (strip ttl) "") as [E|E].
    + now rewrite add_run_blank.
    + rewrite add_run by exact E. cbv zeta. rewrite Hw. cbn [snd].
      rewrite stored_log, stored_write, ids_app. apply in_or_app. now left.
  - rewrite view_run. now apply (Hb _ target (@st_rerun unit)).
  - rewrite view_run. now apply (Hb _ target (@st_rerun unit)).
  - rewrite view_run.
    destruct (edit_row_cases target nt nc np (stored w) (loaded w))
      as [->|(todo & x & _ & _ & ->)]; [|cbn [snd]; now rewrite loaded_stored].
    now apply (Hb _ target (set_editing target false ;; @st_rerun unit)).
Qed.

(** With no removal, every id assigned later is above every id stored now. *)
Lemma assigned_above (ops : list op) (w : world) (i j : Z) :
  write_error w = None ->
  forallb (fun o => negb (removes o)) ops = true ->
  In i (ids (stored w)) -> In j (assigned_ids ops w) -> i < j.
Proof.
  revert w. induction ops as [|o ops IH]; intros w Hw Hr Hi Hj; simpl in *; [destruct Hj|].
  apply andb_true_iff in Hr as [Ho Hr]. apply negb_true_iff in Ho.
  pose proof (exec_keeps_ids o w i Hw Ho Hi) as Hi'.
  assert (Hw' : write_error (exec o w) = None) by now rewrite exec_write_error.
  destruct (assigned o w) as [k|] eqn:Hk.
  - destruct Hj as [<-|Hj]; [|now apply (IH (exec o w))].
    destruct o; simpl in Hk; try discriminate.
    destruct (truthy (strip todo_title)); [|discriminate].
    injection Hk as <-. now apply ids_above.
  - now apply (IH (exec o w)).
Qed.

(** With no removal and a file that can be written, the ids assigned
    increase. *)
Lemma assigned_increasing (ops : list op) (w : world) :
  write_error w = None ->
  forallb (fun o => negb (removes o)) ops = true ->
  StronglySorted Z.lt (assigned_ids ops w).
Proof.
  revert w. induction ops as [|o ops IH]; intros w Hw Hr; simpl; [constructor|].
  simpl in Hr. apply andb_true_iff in Hr as [Ho Hr].
  assert (Hw' : write_error (exec o w) = None) by now rewrite exec_write_error.
  destruct (assigned o w) as [k|] eqn:Hk; [|now apply IH].
  apply StronglySorted_cons. split; [|now apply IH].
  apply List.Forall_forall. intros j Hj.
  destruct (assigned_appended o w k Hk Hw) as (t & Ht & E).
  apply (assigned_above ops (exec o w) k j Hw' Hr); [|exact Hj].
  rewrite E, ids_app. apply in_or_app. right. left.
  unfold get_id. now rewrite Ht.
Qed.

Lemma sorted_NoDup (l : list Z) : StronglySorted Z.lt l -> NoDup l.
Proof.
  intros Hs. induction Hs as [|k l Hs IH Hall]; [constructor|].
  apply NoDup_cons. split; [|exact IH].
  intros Hin. apply list_elem_of_In in Hin.
  rewrite List.Forall_forall in Hall. specialize (Hall k Hin). lia.
Qed.

End Runs.

(** * The claims *)

(** ** Id assignment *)

(** C1, as the specification states it, fails: starting from the empty
    collection, adding a task gives it id 1, deleting that task empties the
    collection, and the next add assigns id 1 again.  The ids assigned along
    these three operations are [1; 1]: they are not pairwise distinct, and the
    id of the deleted task is reassigned. *)
Lemma deleted_id_is_reassigned :
  stored (run [Add "first" Low ""] (world_of [])) = [item 1 "first" Low "" false]
  /\ stored (run [Add "first" Low ""; Delete 1] (world_of [])) = []
  /\ stored (run reuse_ops (world_of [])) = [item 1 "second" High "Home" false]
  /\ assigned_ids reuse_ops (world_of []) = [1; 1]
  /\ ~ NoDup (assigned_ids reuse_ops (world_of [])).
Proof.
  repeat split; try reflexivity.
  change (assigned_ids reuse_ops (world_of [])) with [1; 1].
  intros H. apply NoDup_cons in H as [H _]. apply H. now left.
Qed.

(** C1, as amended: [get_next_id] returns 1 on the empty collection and
    otherwise one more than the greatest id present (a task without the key
    counting as id 0), so the id it returns is above every id of the
    collection it is given; whatever operations are run (add, complete,
    uncomplete, edit, delete, clear completed), the ids of the stored
    collection stay pairwise distinct, and the id the next add assigns is
    not among them: it is the id of the one task that add appends.  As long
    as the file can be written and no operation deletes or clears, the ids
    assigned increase strictly, so all ids ever assigned are pairwise
    distinct. *)
Theorem next_id_keeps_ids_unique (w : world) (ops : list op) :
  unique_ids (stored w) ->
  get_next_id [] = 1
  /\ (forall todos, todos <> [] ->
        exists t, In t todos /\ get_next_id todos = get_id t + 1
                  /\ forall t', In t' todos -> get_id t' <= get_id t)
  /\ (forall todos t, In t todos -> get_id t < get_next_id todos)
  /\ unique_ids (stored (run ops w))
  /\ (forall o i, assigned o (run ops w) = Some i ->
        ~ In i (ids (stored (run ops w)))
        /\ unique_ids (stored (exec o (run ops w)))
        /\ (write_error (run ops w) = None ->
            exists t, tid t = Some i
                      /\ stored (exec o (run ops w)) = (stored (run ops w) ++ [t])%list))
  /\ (write_error w = None -> forallb (fun o => negb (removes o)) ops = true ->
        StronglySorted Z.lt (assigned_ids ops w) /\ NoDup (assigned_ids ops w)).
Proof.
  intros Hu. split; [reflexivity|]. split; [|split; [|split; [|split]]].
  - intros [|t0 rest] Hne; [congruence|]. simpl.
    destruct (py_max_attained (map get_id rest) (get_id t0)) as [E|Hin].
    + exists t0. split; [now left|]. split; [now rewrite <- E|].
      intros t' Hin'. apply (get_next_id_above (t0 :: rest)) in Hin'.
      simpl in Hin'. lia.
    + apply in_map_iff in Hin as (t & E & Hin).
      exists t. split; [now right|]. split; [now rewrite E|].
      intros t' Hin'. apply (get_next_id_above (t0 :: rest)) in Hin'.
      simpl in Hin'. lia.
  - intros todos t. apply get_next_id_above.
  - now apply run_unique.
  - intros o i Ha. split; [|split].
    + destruct o; simpl in Ha; try discriminate.
      destruct (truthy (strip todo_title)); [|discriminate].
      injection Ha as <-. apply get_next_id_fresh.
    + apply exec_unique. now apply run_unique.
    + now apply assigned_appended.
  - intros Hw Hr. pose proof (assigned_increasing ops w Hw Hr) as Hs.
    split; [exact Hs | now apply sorted_NoDup].
Qed.

Lemma next_id_keeps_ids_unique_witness :
  unique_ids (stored (world_of [item 1 "a" Low "" false; item 4 "b" High "" true]))
  /\ unique_ids (stored (run [Delete 4; Add "c" Medium "Work"; Complete 1]
                   (world_of [item 1 "a" Low "" false; item 4 "b" High "" true]))).
Proof.
  assert (H : unique_ids (stored (world_of [item 1 "a" Low "" false; item 4 "b" High "" true]))).
  { unfold unique_ids. simpl. apply NoDup_cons. split.
    - intros Hin. apply list_elem_of_In in Hin.
      destruct Hin as [Hin|[]]. discriminate Hin.
    - apply NoDup_singleton. }
  split; [exact H|].
  exact (proj1 (proj2 (proj2 (proj2
    (next_id_keeps_ids_unique _ [Delete 4; Add "c" Medium "Work"; Complete 1] H))))).
Defined.

(** ** Loading *)

(** C2, as the specification states it, fails: when the file holds the JSON
    string ["not a list"], [load_todos] returns the empty collection and does
    not raise, but it reports nothing: the world, and so the list of notices,
    is exactly as before. *)
Lemma load_non_array_reports_nothing :
  load_todos string_world = (Return [], string_world)
  /\ ui (snd (load_todos string_world)) = [].
Proof. split; reflexivity. Qed.

(** C2, as amended: [load_todos] never raises.  When the file decodes to a
    JSON value that is not an array it returns the empty collection and
    reports nothing; when reading or decoding the file raises (malformed
    JSON) it reports the error and returns the empty collection. *)
Theorem load_todos_recovers (w : world) :
  (exists todos w', load_todos w = (Return todos, w'))
  /\ (forall data, disk w = Holds data -> (forall l, data <> JArray l) ->
        load_todos w = (Return [], w))
  /\ (forall e, disk w = Undecodable e ->
        load_todos w = (Return [], log (Error ("Error loading todos: " ++ e)) w)).
Proof.
  split; [|split].
  - rewrite load_todos_returns. eauto.
  - intros data Hd Hna. unfold load_todos. rewrite Hd.
    destruct data; try reflexivity. now destruct (Hna l).
  - intros e Hd. unfold load_todos. now rewrite Hd.
Qed.

Lemma load_todos_recovers_witness :
  load_todos string_world = (Return [], string_world)
  /\ load_todos garbled_world
     = (Return [], log (Error "Error loading todos: Expecting value: line 1 column 1 (char 0)")
                       garbled_world).
Proof.
  split.
  - apply (proj1 (proj2 (load_todos_recovers string_world)) (JString "not a list")).
    + reflexivity.
    + intros l. discriminate.
  - apply (proj2 (proj2 (load_todos_recovers garbled_world))). reflexivity.
Defined.

(** ** Adding a task *)

(** C3.  When the trimmed title is empty, submitting the form reports an
    error and changes nothing else: the file is not written.  When it is not
    empty, and the file can be written, the run appends exactly one task to
    the stored collection, with the next id (which no stored task has), the
    trimmed title, the chosen priority, the trimmed category and
    [completed = False]; the tasks already stored are kept as they are, in
    order. *)
Theorem add_validates_then_appends (w : world) (todo_title : string)
    (todo_priority : priority_choice) (todo_category : string) :
  (strip todo_title = "" ->
     render_todo_input todo_title todo_priority todo_category true w
     = (Return tt, log (Error "Please enter a to-do title!") w)
     /\ disk (exec (Add todo_title todo_priority todo_category) w) = disk w
     /\ stored (exec (Add todo_title todo_priority todo_category) w) = stored w)
  /\ (strip todo_title <> "" -> write_error w = None ->
      let new_todo := {| tid := Some (get_next_id (stored w));
                         title := Some (strip todo_title);
                         priority := Some (label todo_priority);
                         category := Some (strip todo_category);
                         completed := Some false |} in
      stored (exec (Add todo_title todo_priority todo_category) w)
      = (stored w ++ [new_todo])%list
      /\ ~ In (get_next_id (stored w)) (ids (stored w))
      /\ fst (render_todo_input todo_title todo_priority todo_category true w) = Rerun
      /\ ui (exec (Add todo_title todo_priority todo_category) w)
         = (ui (loaded w) ++ [Success "To-Do added successfully!"])%list).
Proof.
  split.
  - intros H. unfold exec. cbn [perform]. rewrite add_run_blank by exact H.
    repeat split.
  - intros H Hw. unfold exec. cbn [perform]. rewrite add_run by exact H.
    rewrite Hw. cbv zeta. repeat split. apply get_next_id_fresh.
Qed.

Lemma add_validates_then_appends_witness :
  stored (exec (Add "   " High "Work") (world_of [item 1 "a" Low "" false]))
  = [item 1 "a" Low "" false]
  /\ stored (exec (Add " Buy milk " High " Home") (world_of [item 1 "a" Low "" false]))
     = [item 1 "a" Low "" false; item 2 "Buy milk" High "Home" false].
Proof.
  split.
  - apply (proj1 (add_validates_then_appends
                    (world_of [item 1 "a" Low "" false]) "   " High "Work")).
    reflexivity.
  - apply (proj2 (add_validates_then_appends
                    (world_of [item 1 "a" Low "" false]) " Buy milk " High " Home")).
    + discriminate.
    + reflexivity.
Defined.

(** ** Filtering *)

Section Filters.

Lemma filter_twice {A : Type} (p q : A -> bool) (l : list A) :
  List.filter q (List.filter p l) = List.filter (fun x => p x && q x) l.
Proof.
  induction l as [|x l IH]; simpl; [reflexivity|].
  destruct (p x); simpl; [|exact IH].
  destruct (q x); now rewrite IH.
Qed.

Lemma selected_spec (v : option string) (selection : list string) :
  selected v selection = true <-> exists s, v = Some s /\ In s selection.
Proof.
  destruct v as [s|]; simpl.
  - rewrite existsb_exists. split.
    + intros (x & Hin & E). apply String.eqb_eq in E. subst. eauto.
    + intros (x & [= <-] & Hin). exists s. split; [exact Hin|]. apply String.eqb_refl.
  - split; [discriminate|]. now intros (s & E & _).
Qed.

Lemma filtered_todos_filter (filter_category filter_priority : list string) (todos : list task) :
  filtered_todos filter_category filter_priority todos
  = List.filter (fun t => (is_nil filter_category || selected (category t) filter_category)
                          && (is_nil filter_priority || selected (priority t) filter_priority))
      todos.
Proof.
  unfold filtered_todos.
  destruct filter_category as [|c cs], filter_priority as [|p ps]; cbn [is_nil orb].
  - induction todos as [|t l IH]; simpl; [reflexivity | now f_equal].
  - apply filter_ext. intros t. reflexivity.
  - apply filter_ext. intros t. now rewrite andb_true_r.
  - apply filter_twice.
Qed.

End Filters.


(** ** Clearing the completed tasks *)

(** C5.  "Clear All Completed" keeps, in their order, exactly the tasks
    whose [completed] is not true: those with [completed = False] and those
    without the key; every task with [completed = True] is dropped, and the
    list that remains is what the button saves.  Of three tasks of which two
    are completed, only the incomplete one remains. *)
Theorem clear_completed_drops_completed (todos : list task) :
  clear_completed todos
  = List.filter (fun t => match completed t with Some true => false | _ => true end) todos
  /\ (forall t, In t (clear_completed todos) <-> In t todos /\ completed t <> Some true)
  /\ (forall w, write_error w = None ->
        clear_button todos w = (Rerun, write (clear_completed todos) w))
  /\ clear_completed [item 1 "a" Low "" true; item 2 "b" High "Work" false;
                      item 3 "c" Medium "" true]
     = [item 2 "b" High "Work" false]
  /\ (forall t, completed t = None -> clear_completed [t] = [t]).
Proof.
  assert (E : forall t, negb (get_completed t)
                        = match completed t with Some true => false | _ => true end).
  { intros t. unfold get_completed. now destruct (completed t) as [[|]|]. }
  split; [|split; [|split; [|split]]].
  - unfold clear_completed. apply filter_ext. exact E.
  - intros t. unfold clear_completed. rewrite filter_In, E.
    destruct (completed t) as [[|]|]; split; intros [Hin Hc];
      (split; [exact Hin|]); congruence.
  - intros w Hw. unfold clear_button. cbv zeta. rewrite bind_run.
    now rewrite save_todos_ok.
  - reflexivity.
  - intros t Ht. unfold clear_completed, get_completed. simpl. now rewrite Ht.
Qed.

Lemma clear_completed_drops_completed_witness :
  clear_button [item 1 "a" Low "" true; item 2 "b" High "Work" false]
    (world_of [item 1 "a" Low "" true; item 2 "b" High "Work" false])
  = (Rerun, world_of [item 2 "b" High "Work" false]).
Proof.
  exact (proj1 (proj2 (proj2 (clear_completed_drops_completed
           [item 1 "a" Low "" true; item 2 "b" High "Work" false])))
         (world_of [item 1 "a" Low "" true; item 2 "b" High "Work" false]) eq_refl).
Defined.

(** ** The update loops *)

Section UpdateLoops.

(** The id of the row whose button is pressed. *)
Variable target : Z.

Lemma keyed_cons (t : task) (rest : list task) :
  keyed (t :: rest) = true -> (exists i, tid t = Some i) /\ keyed rest = true.
Proof.
  unfold keyed. simpl. intros H. apply andb_true_iff in H as [Ht Hr].
  split; [|exact Hr]. unfold has_id in Ht. destruct (tid t); [eauto|discriminate].
Qed.

(** No task has the id: the loop runs to its end and changes nothing. *)
Lemma update_first_absent (body : task -> task) (todos : list task) :
  keyed todos = true -> ~ In target (ids todos) ->
  update_first target body todos = inr todos.
Proof.
  induction todos as [|t rest IH]; intros Hk Hn; [reflexivity|].
  apply keyed_cons in Hk as [[i Hi] Hk]. simpl in *.
  unfold get_id in Hn. rewrite Hi in *. simpl in Hn.
  destruct (Z.eqb_spec i target) as [->|Hne]; [tauto|].
  rewrite IH; [reflexivity | exact Hk | tauto].
Qed.

(** Some task has the id: the first such task is updated, in place. *)
Lemma update_first_present (todos : list task) :
  keyed todos = true -> In target (ids todos) ->
  exists pre t post,
    todos = (pre ++ t :: post)%list /\ tid t = Some target
    /\ ~ In target (ids pre)
    /\ forall body, update_first target body todos = inr (pre ++ body t :: post)%list.
Proof.
  induction todos as [|t rest IH]; intros Hk Hin; [destruct Hin|].
  apply keyed_cons in Hk as [[i Hi] Hk]. simpl in *.
  unfold get_id in Hin at 1. rewrite Hi in *. simpl in Hin.
  destruct (Z.eqb_spec i target) as [->|Hne].
  - exists [], t, rest. simpl. tauto.
  - destruct Hin as [Hin|Hin]; [contradiction|].
    destruct (IH Hk Hin) as (pre & t' & post & -> & Ht' & Hpre & Hup).
    exists (t :: pre), t', post. simpl. unfold get_id at 1. rewrite Hi. simpl.
    repeat split; [exact Ht' | tauto |].
    intros body. now rewrite Hup.
Qed.

(** With pairwise distinct ids, the task found is the only one with the id. *)
Lemma unique_ids_split (pre post : list task) (t : task) :
  unique_ids (pre ++ t :: post) -> get_id t = target ->
  forall t', In t' (pre ++ post) -> get_id t' <> target.
Proof.
  unfold unique_ids, ids. rewrite map_app. simpl.
  intros Hu <- t' Hin E.
  apply NoDup_app in Hu as (_ & Hdis & Hpost).
  apply NoDup_cons in Hpost as [Hpost _].
  apply in_app_or in Hin as [Hin|Hin].
  - apply (Hdis (get_id t')).
    + apply list_elem_of_In, in_map. exact Hin.
    + rewrite E. apply list_elem_of_In. now left.
  - apply Hpost. rewrite <- E. apply list_elem_of_In, in_map. exact Hin.
Qed.

(** Before a task without the key ["id"] the loop cannot go on: [t["id"]]
    raises.  The application never stores such a task ([run_keyed]). *)
Lemma update_first_raises (body : task -> task) (t : task) (rest : list task) :
  tid t = None -> update_first target body (t :: rest) = inl (KeyError "id").
Proof. intros Ht. simpl. now rewrite Ht. Qed.

Lemma write_same (todos : list task) (w : world) :
  disk w = Holds (JArray todos) -> write todos w = w.
Proof. destruct w. simpl. intros ->. reflexivity. Qed.

Lemma button_saves (r : exn + list task) (todos : list task) (k : script unit) (w : world) :
  r = inr todos -> write_error w = None ->
  (todos ← lift r; save_todos todos ;; k) w = k (write todos w).
Proof.
  intros -> Hw. rewrite bind_run. simpl. rewrite bind_run.
  now rewrite save_todos_ok.
Qed.

End UpdateLoops.

(** C6.  In a collection whose tasks all carry an id, when no task has the
    id of the button pressed, the loop of "Mark as complete" and of "Mark as
    incomplete" ends without a match and without an exception and leaves the
    list as it was; the button then saves that same list and reports
    nothing, so a run on a file that holds the collection leaves the world
    exactly as it found it. *)
Theorem unknown_id_changes_nothing (todos : list task) (target : Z) :
  keyed todos = true -> ~ In target (ids todos) ->
  update_first target (set_completed true) todos = inr todos
  /\ update_first target (set_completed false) todos = inr todos
  /\ (forall w, write_error w = None ->
        complete_button target todos w = (Rerun, write todos w)
        /\ undo_button target todos w = (Rerun, write todos w)
        /\ ui (write todos w) = ui w)
  /\ (forall w, write_error w = None -> disk w = Holds (JArray todos) ->
        perform (Complete target) w = (Rerun, w)
        /\ perform (Uncomplete target) w = (Rerun, w)).
Proof.
  intros Hk Hn.
  pose proof (update_first_absent target (set_completed true) todos Hk Hn) as Ht.
  pose proof (update_first_absent target (set_completed false) todos Hk Hn) as Hf.
  split; [exact Ht|]. split; [exact Hf|]. split.
  - intros w Hw. unfold complete_button, undo_button.
    rewrite (button_saves _ todos _ w Ht Hw), (button_saves _ todos _ w Hf Hw).
    repeat split.
  - intros w Hw Hd. cbn [perform]. rewrite !view_run.
    assert (Hs : stored w = todos) by (unfold stored; now rewrite Hd).
    rewrite (loaded_holds w todos Hd), Hs.
    unfold complete_button, undo_button.
    rewrite (button_saves _ todos _ w Ht Hw), (button_saves _ todos _ w Hf Hw).
    rewrite (write_same todos w Hd). split; reflexivity.
Qed.

Lemma unknown_id_changes_nothing_witness :
  perform (Complete 7) (world_of [item 1 "a" Low "" false; item 2 "b" High "" true])
  = (Rerun, world_of [item 1 "a" Low "" false; item 2 "b" High "" true])
  /\ perform (Uncomplete 7) (world_of [item 1 "a" Low "" false; item 2 "b" High "" true])
     = (Rerun, world_of [item 1 "a" Low "" false; item 2 "b" High "" true]).
Proof.
  assert (Hn : ~ In 7 (ids [item 1 "a" Low "" false; item 2 "b" High "" true])).
  { intros [H|[H|[]]]; discriminate H. }
  exact (proj2 (proj2 (proj2
    (unknown_id_changes_nothing [item 1 "a" Low "" false; item 2 "b" High "" true] 7
       eq_refl Hn)))
    (world_of [item 1 "a" Low "" false; item 2 "b" High "" true]) eq_refl eq_refl).
Defined.

(** C9.  In a collection whose tasks all carry an id, the ids being pairwise
    distinct, pressing "Mark as complete" (or "Mark as incomplete") on an id
    of the collection replaces the one task with that id by the same task
    with [completed] set to true (to false): its id, title, category and
    priority are the same, the tasks before it and after it are the same, in
    the same order, and this list is what the button saves. *)
Theorem complete_changes_only_completed (todos : list task) (target : Z) :
  keyed todos = true -> unique_ids todos -> In target (ids todos) ->
  exists pre t post,
    todos = (pre ++ t :: post)%list
    /\ tid t = Some target
    /\ (forall t', In t' (pre ++ post) -> tid t' <> Some target)
    /\ update_first target (set_completed true) todos
       = inr (pre ++ set_completed true t :: post)%list
    /\ update_first target (set_completed false) todos
       = inr (pre ++ set_completed false t :: post)%list
    /\ (forall v, tid (set_completed v t) = tid t
                  /\ title (set_completed v t) = title t
                  /\ category (set_completed v t) = category t
                  /\ priority (set_completed v t) = priority t
                  /\ completed (set_completed v t) = Some v)
    /\ (forall w, write_error w = None ->
          complete_button target todos w
          = (Rerun, write (pre ++ set_completed true t :: post)%list w)
          /\ undo_button target todos w
             = (Rerun, write (pre ++ set_completed false t :: post)%list w)).
Proof.
  intros Hk Hu Hin.
  destruct (update_first_present target todos Hk Hin)
    as (pre & t & post & E & Ht & Hpre & Hbody).
  exists pre, t, post.
  pose proof (Hbody (set_completed true)) as Hup.
  pose proof (Hbody (set_completed false)) as Hdown.
  split; [exact E|]. split; [exact Ht|]. split; [|split; [exact Hup|split; [exact Hdown|split]]].
  - intros t' Hin' Ht'. subst todos.
    apply (unique_ids_split target pre post t Hu) in Hin'.
    + apply Hin'. unfold get_id. now rewrite Ht'.
    + unfold get_id. now rewrite Ht.
  - intros v. repeat split.
  - intros w Hw. unfold complete_button, undo_button.
    rewrite (button_saves _ _ _ w Hup Hw), (button_saves _ _ _ w Hdown Hw).
    split; reflexivity.
Qed.

Ltac distinct_ids :=
  unfold unique_ids; simpl;
  repeat (apply NoDup_cons; split;
          [ let H := fresh in
            intros H; apply list_elem_of_In in H; simpl in H;
            repeat (destruct H as [H|H]; [discriminate H|]); destruct H | ]);
  apply NoDup_nil_2.

Lemma complete_changes_only_completed_witness :
  exists pre t post,
    three_items
    = (pre ++ t :: post)%list
    /\ tid t = Some 2
    /\ update_first 2 (set_completed true)
         three_items
       = inr (pre ++ set_completed true t :: post)%list.
Proof.
  assert (Hu : unique_ids three_items) by distinct_ids.
  assert (Hin : In 2 (ids three_items))
    by (right; left; reflexivity).
  destruct (complete_changes_only_completed three_items 2 eq_refl Hu Hin)
    as (pre & t & post & E & Ht & _ & Hup & _).
  exists pre, t, post. repeat split; assumption.
Defined.

(** ** Editing *)

(** C10.  In a collection whose tasks all carry an id, saving the edit form
    for an id of the collection stores, on the first task with that id, the
    trimmed new title, the trimmed new category and the selected priority,
    whatever they are: nothing is validated, no error is reported, and a new
    title made of whitespace is stored as the empty string.  The id and the
    [completed] value of the task, and every other task, are unchanged. *)
Theorem edit_stores_without_validation (todos : list task) (target : Z)
    (new_title new_category : string) (new_priority : priority_choice) :
  keyed todos = true -> In target (ids todos) ->
  exists pre t post,
    todos = (pre ++ t :: post)%list
    /\ tid t = Some target
    /\ ~ In target (ids pre)
    /\ update_first target
         (set_fields (strip new_title) (strip new_category) (label new_priority)) todos
       = inr (pre ++ {| tid := tid t;
                        title := Some (strip new_title);
                        priority := Some (label new_priority);
                        category := Some (strip new_category);
                        completed := completed t |} :: post)%list
    /\ (blank new_title = true -> strip new_title = "")
    /\ (forall w, write_error w = None ->
          save_button target new_title new_category new_priority todos w
          = (Rerun, mark_editing target false
                      (write (pre ++ set_fields (strip new_title) (strip new_category)
                                       (label new_priority) t :: post)%list w))
          /\ ui (snd (save_button target new_title new_category new_priority todos w))
             = ui w).
Proof.
  intros Hk Hin.
  destruct (update_first_present target todos Hk Hin)
    as (pre & t & post & E & Ht & Hpre & Hbody).
  exists pre, t, post.
  split; [exact E|]. split; [exact Ht|]. split; [exact Hpre|].
  split; [apply Hbody|]. split; [apply strip_empty|].
  intros w Hw. unfold save_button.
  rewrite (button_saves _ _ _ w (Hbody _) Hw). split; reflexivity.
Qed.

Lemma edit_stores_without_validation_witness :
  exists pre t post,
    two_items = (pre ++ t :: post)%list
    /\ update_first 2 (set_fields (strip "   ") (strip " Home ") (label Medium))
         two_items
       = inr (pre ++ {| tid := tid t; title := Some ""; priority := Some "Medium";
                        category := Some "Home"; completed := completed t |} :: post)%list.
Proof.
  assert (Hin : In 2 (ids two_items))
    by (right; left; reflexivity).
  destruct (edit_stores_without_validation two_items 2 "   " " Home " Medium eq_refl Hin)
    as (pre & t & post & E & _ & _ & Hup & _).
  exists pre, t, post. split; [exact E | exact Hup].
Defined.

(** ** Analytics *)

Section Analytics.

Lemma log_ui (n : notice) (w : world) : ui (log n w) = (ui w ++ [n])%list.
Proof. reflexivity. Qed.

(** What [render_analytics] shows for a non-empty collection. *)
Lemma render_analytics_shows (w : world) :
  stored w <> [] ->
  render_analytics w
  = (Return tt,
     {| disk := disk (loaded w); write_error := write_error (loaded w);
        editing := editing (loaded w);
        ui := (ui (loaded w) ++
               [Metric "Total To-Dos" (Count (length (stored w)));
                Metric "Completed" (Count (length (completed_todos (stored w))));
                Metric "Remaining"
                  (Count (length (stored w) - length (completed_todos (stored w))));
                Metric "Completion Rate"
                  (Percent (completion_rate (length (completed_todos (stored w)))
                                            (length (stored w))));
                Chart "To-Dos by Priority" (value_counts (priority_column (stored w)));
                Chart "To-Dos by Category" (value_counts (category_column (stored w)));
                Chart "Completion Status" (value_counts (status_column (stored w)))])%list
     |}).
Proof.
  intros Hne. unfold render_analytics.
  rewrite bind_run, load_todos_returns.
  destruct (stored w) as [|t rest] eqn:Hs; [congruence|].
  cbn [is_nil]. rewrite <- Hs. clear Hne.
  assert (Hlen : (0 <? length (stored w))%nat = true) by now rewrite Hs.
  assert (Hcat : is_nil (category_column (stored w)) = false) by now rewrite Hs.
  rewrite Hlen, Hcat. unfold completed_todos.
  repeat (rewrite bind_run; unfold show at 1).
  unfold show, log. cbn [disk write_error editing ui].
  rewrite <- !app_assoc. reflexivity.
Qed.

Lemma render_analytics_empty (w : world) :
  stored w = [] ->
  render_analytics w = (Return tt, log (Info "No to-dos to analyze yet!") (loaded w)).
Proof.
  intros Hs. unfold render_analytics.
  rewrite bind_run, load_todos_returns, Hs. reflexivity.
Qed.

(** Occurrences of [v] in a column. *)
Lemma value_counts_lookup (values : list string) (v : string) :
  value_counts values !! v
  = match length (List.filter (String.eqb v) values) with
    | O => None
    | S n => Some (S n)
    end.
Proof.
  induction values as [|x l IH]; simpl; [apply lookup_empty|].
  destruct (String.eqb_spec v x) as [<-|Hne].
  - rewrite lookup_insert_eq, IH. simpl.
    now destruct (length (List.filter (String.eqb v) l)).
  - rewrite lookup_insert_ne by congruence. exact IH.
Qed.

Lemma filter_map_length {A B : Type} (f : A -> B) (p : B -> bool) (l : list A) :
  length (List.filter p (map f l)) = length (List.filter (fun a => p (f a)) l).
Proof.
  induction l as [|a l IH]; simpl; [reflexivity|].
  destruct (p (f a)); simpl; now rewrite IH.
Qed.

(** [round_half_even] returns a nearest integer, and the even one of the
    two when there are two. *)
Lemma round_half_even_nearest (num den : Z) :
  0 <= num -> 0 < den ->
  2 * Z.abs (num - round_half_even num den * den) <= den
  /\ (2 * Z.abs (num - round_half_even num den * den) = den ->
      Z.even (round_half_even num den) = true).
Proof.
  intros Hn Hd. unfold round_half_even. cbv zeta.
  pose proof (Z.div_mod num den ltac:(lia)) as E.
  pose proof (Z.mod_pos_bound num den Hd) as Hr.
  set (q := num / den) in *. set (r := num mod den) in *.
  destruct (Z.compare_spec (2 * r) den) as [Ht|Hlt|Hgt].
  - destruct (Z.even q) eqn:Hq.
    + split; [|intros _; exact Hq]. replace (num - q * den) with r by lia. lia.
    + split.
      * replace (num - (q + 1) * den) with (r - den) by lia. lia.
      * intros _. rewrite Z.add_1_r, Z.even_succ, <- Z.negb_even. now rewrite Hq.
  - replace (num - q * den) with r by lia. split; lia.
  - replace (num - (q + 1) * den) with (r - den) by lia. split; lia.
Qed.

Lemma sf_same_eq (a b : spec_float) : sf_same a b = true -> a = b.
Proof.
  destruct a as [s|s| |s m e], b as [s'|s'| |s' m' e']; simpl; try discriminate;
    try reflexivity.
  - intros H. apply Bool.eqb_prop in H. now subst.
  - intros H. apply Bool.eqb_prop in H. now subst.
  - rewrite !andb_true_iff. intros [[Hs Hm] He].
    apply Bool.eqb_prop in Hs. apply Pos.eqb_eq in Hm. apply Z.eqb_eq in He. now subst.
Qed.

(** Every collection of at most 200 tasks, by computation. *)
Lemma rates_shown :
  forallb (fun n => forallb (fun c => rate_is_shown c n) (seq 0 (S n))) (seq 1 200) = true.
Proof. vm_compute. reflexivity. Qed.

Lemma rate_shown (c n : nat) :
  (0 < n <= 200)%nat -> (c <= n)%nat -> completion_rate c n = tenths (shown_tenths c n).
Proof.
  intros Hn Hc. apply Prim2SF_inj, sf_same_eq.
  pose proof rates_shown as H. rewrite forallb_forall in H.
  specialize (H n ltac:(apply in_seq; lia)). rewrite forallb_forall in H.
  apply (H c). apply in_seq. lia.
Qed.

Lemma completed_length (todos : list task) :
  (length (completed_todos todos) <= length todos)%nat.
Proof.
  unfold completed_todos. pose proof (List.filter_length get_completed todos). lia.
Qed.

End Analytics.

(** C7, as the specification states it, fails: of 80 tasks with 23
    completed the exact percentage is 28.75, which rounds to 28.8 (288
    tenths) whether a tie goes to the even neighbour or up, while the rate
    shown is 28.7: the floating-point product [(23 / 80) * 100] lies just
    below 28.75, and it is this float that is rounded. *)
Lemma rate_of_23_in_80_is_rounded_down :
  length (batch 23 80) = 80%nat
  /\ length (completed_todos (batch 23 80)) = 23%nat
  /\ exact_tenths 23 80 = 288
  /\ (2 * (1000 * 23) + 80) / (2 * 80) = 288
  /\ reported_rate (ui (snd (render_analytics (world_of (batch 23 80))))) = Some (tenths 287)
  /\ PrimFloat.ltb (tenths 287) (tenths 288) = true
  /\ PrimFloat.ltb (PrimFloat.mul (PrimFloat.div (float_of_nat 23) (float_of_nat 80))
                                  (float_of_Z 100))
                   (PrimFloat.div (float_of_Z 2875) (float_of_Z 100)) = true.
Proof. repeat split; vm_compute; reflexivity. Qed.

(** C7, as amended.  For a non-empty collection, [render_analytics] returns
    and reports as completion rate [round((completed / total) * 100, 1)]
    computed on binary64 floats, where [total] is the number of tasks and
    [completed] the number of those whose [completed] is true.  [round(x, 1)]
    of a float [x] with a fractional part is the float nearest to [k / 10],
    with the sign of [x], where [k] is the integer nearest to ten times the
    exact value of [|x|], the even one of the two when it lies half way.
    For a collection of at most 200 tasks the rate is the exact percentage
    rounded to one decimal, ties to even, except in six cases where the
    exact percentage lies half way between two decimals and the product
    computed does not: 23, 49 and 51 of 80, and 46, 98 and 102 of 160, which
    show 28.7, 61.3 and 63.7 where the exact rounding is 28.8, 61.2 and
    63.8.  The rate is 25.0 for four tasks of which one is completed and
    33.3 (the float nearest to 333/10) for one of three.  For the empty
    collection [render_analytics] returns after the notice that there is
    nothing to analyze: no rate is computed, so there is no division, and
    nothing is raised. *)
Theorem completion_rate_rounded (w : world) :
  (stored w <> [] ->
     fst (render_analytics w) = Return tt
     /\ exists shown,
          ui (snd (render_analytics w)) = (ui (loaded w) ++ shown)%list
          /\ reported_rate shown
             = Some (py_round
                       (PrimFloat.mul
                          (PrimFloat.div
                             (float_of_nat (length (completed_todos (stored w))))
                             (float_of_nat (length (stored w))))
                          (float_of_Z 100)) 1)
          /\ ((length (stored w) <= 200)%nat ->
              reported_rate shown
              = Some (tenths (shown_tenths (length (completed_todos (stored w)))
                                           (length (stored w))))))
  /\ (stored w = [] ->
        render_analytics w = (Return tt, log (Info "No to-dos to analyze yet!") (loaded w))
        /\ reported_rate (ui (log (Info "No to-dos to analyze yet!") (world_of []))) = None)
  /\ (forall x s m e, Prim2SF x = S754_finite s m e -> e < 0 ->
        exists k,
          2 * Z.abs (Zpos m * 10 - k * 2 ^ (- e)) <= 2 ^ (- e)
          /\ (2 * Z.abs (Zpos m * 10 - k * 2 ^ (- e)) = 2 ^ (- e) -> Z.even k = true)
          /\ (k < 2 ^ 53 ->
              py_round x 1 = if s then PrimFloat.opp (tenths k) else tenths k))
  /\ (forall c n, (0 < n <= 200)%nat -> (c <= n)%nat ->
        completion_rate c n = tenths (shown_tenths c n)
        /\ (shown_tenths c n = exact_tenths c n
            \/ In (c, n, shown_tenths c n) off_by_a_tenth))
  /\ Forall (fun row => 2 * ((1000 * Z.of_nat (fst (fst row))) mod Z.of_nat (snd (fst row)))
                        = Z.of_nat (snd (fst row))
                        /\ Z.abs (snd row - exact_tenths (fst (fst row)) (snd (fst row))) = 1)
            off_by_a_tenth
  /\ completion_rate 1 4 = 25%float
  /\ completion_rate 1 3 = PrimFloat.div 333%float 10%float
  /\ reported_rate (ui (snd (render_analytics (world_of four_tasks)))) = Some 25%float.
Proof.
  split; [|split; [|split; [|split; [|split; [|split; [|split]]]]]].
  - intros Hne. rewrite (render_analytics_shows w Hne). split; [reflexivity|].
    eexists. split; [reflexivity|]. split; [reflexivity|].
    intros Hlen. cbn [reported_rate]. f_equal. apply rate_shown.
    + destruct (stored w); [congruence | simpl in *; lia].
    + apply completed_length.
  - intros Hs. split; [now apply render_analytics_empty | reflexivity].
  - intros x s m e Hx He. exists (round_half_even (Zpos m * 10) (2 ^ (- e))).
    assert (Hp : 0 < 2 ^ (- e)) by (apply Z.pow_pos_nonneg; lia).
    destruct (round_half_even_nearest (Zpos m * 10) (2 ^ (- e)) ltac:(lia) Hp) as [H1 H2].
    split; [exact H1|]. split; [exact H2|].
    intros Hk. unfold py_round. rewrite Hx.
    destruct (Z.leb_spec 0 e) as [H|_]; [lia|].
    change (10 ^ Z.of_nat 1) with 10. cbv zeta.
    apply Z.ltb_lt in Hk. rewrite Hk. unfold tenths. reflexivity.
  - intros c n Hn Hc. split; [now apply rate_shown|].
    unfold shown_tenths.
    destruct (List.find _ off_by_a_tenth) as [[[c' n'] k]|] eqn:Hf; [|now left].
    right. apply find_some in Hf as [Hin Hcn]. cbn [fst snd] in *.
    apply andb_true_iff in Hcn as [Hc' Hn'].
    apply Nat.eqb_eq in Hc', Hn'. now subst.
  - repeat constructor.
  - vm_compute. reflexivity.
  - vm_compute. reflexivity.
  - vm_compute. reflexivity.
Qed.

Lemma completion_rate_rounded_witness :
  (exists shown,
     ui (snd (render_analytics (world_of two_items))) = shown
     /\ reported_rate shown = Some (completion_rate 1 2))
  /\ render_analytics (world_of [])
     = (Return tt, log (Info "No to-dos to analyze yet!") (world_of [])).
Proof.
  split.
  - destruct (proj1 (completion_rate_rounded (world_of two_items))) as (_ & shown & E & R & _).
    + discriminate.
    + exists shown. split; [exact E | exact R].
  - exact (proj1 (proj1 (proj2 (completion_rate_rounded (world_of []))) eq_refl)).
Defined.

(** C8, as the specification states it, fails: a task whose priority is the
    string "Urgent" is counted under "Urgent", not under "Low".  Only a task
    without a priority is counted under "Low". *)
Lemma unknown_priority_keeps_its_bar :
  priority_column [urgent_task; plain_task] = ["Urgent"; "Low"]
  /\ counted [urgent_task] "Low" = 0%nat
  /\ counted [urgent_task] "Urgent" = 1%nat
  /\ counted [urgent_task; plain_task] "Low" = 1%nat
  /\ counted [urgent_task; plain_task] "Urgent" = 1%nat.
Proof. repeat split; vm_compute; reflexivity. Qed.

(** C8, as amended: the priority histogram counts the tasks per priority
    value, a task without a priority being counted under "Low" and a task
    with a priority under that priority, whether or not it is one of Low,
    Medium and High. *)
Theorem priority_histogram_counts (todos : list task) (p : string) :
  counted todos p
  = length (List.filter
              (fun t => match priority t with
                        | Some q => String.eqb p q
                        | None => String.eqb p "Low"
                        end) todos)
  /\ (value_counts (priority_column todos) !! p = None <-> counted todos p = 0%nat)
  /\ counted todos "Low"
     = (length (List.filter (fun t => match priority t with
                                      | None => true | Some _ => false end) todos)
        + length (List.filter (fun t => match priority t with
                                        | Some q => String.eqb q "Low"
                                        | None => false end) todos))%nat.
Proof.
  assert (Hc : forall q, counted todos q
               = length (List.filter
                           (fun t => match priority t with
                                     | Some q' => String.eqb q q'
                                     | None => String.eqb q "Low"
                                     end) todos)).
  { intros q. unfold counted, priority_column.
    rewrite value_counts_lookup, filter_map_length.
    replace (List.filter (fun a => String.eqb q (default "Low" (priority a))) todos)
      with (List.filter (fun t => match priority t with
                                  | Some q' => String.eqb q q'
                                  | None => String.eqb q "Low"
                                  end) todos).
    - now destruct (length _).
    - apply filter_ext. intros t. now destruct (priority t). }
  split; [apply Hc|]. split.
  - unfold counted. rewrite value_counts_lookup.
    destruct (length _); simpl; split; congruence.
  - rewrite Hc. clear Hc.
    rewrite (filter_ext _ (fun t => match priority t with
                                    | Some q => String.eqb q "Low"
                                    | None => true
                                    end)).
    + induction todos as [|t l IH]; simpl; [reflexivity|].
      destruct (priority t) as [q|]; [destruct (String.eqb q "Low")|];
        simpl; rewrite IH; lia.
    + intros t. destruct (priority t) as [q|]; [apply String.eqb_sym | reflexivity].
Qed.

(** * Further properties of the code *)

(** ** The store, on a missing or read-only file *)

Section StoreEdges.

Lemma disk_spoil (f : write_failure) (w : world) :
  disk (spoil f w) = torn_disk f (disk w).
Proof. now destruct f. Qed.

Lemma ui_spoil (f : write_failure) (w : world) : ui (spoil f w) = ui w.
Proof. now destruct f. Qed.

Lemma torn_disk_twice (f : write_failure) (d : file) :
  torn_disk f (torn_disk f d) = torn_disk f d.
Proof. now destruct f. Qed.

Lemma failed_refl (f : write_failure) (w : world) : failed_run f w w.
Proof. split; [now left|]. exists []. simpl. now rewrite app_nil_r. Qed.

Lemma failed_trans (f : write_failure) (w v u : world) :
  failed_run f w v -> failed_run f v u -> failed_run f w u.
Proof.
  intros [Hd (e1 & Hu)] [Hd' (e2 & Hu')]. split.
  - destruct Hd as [Hd|Hd], Hd' as [Hd'|Hd']; rewrite Hd', ?Hd, ?torn_disk_twice; auto.
  - exists (e1 ++ e2)%list. rewrite Hu', Hu, map_app. now rewrite app_assoc.
Qed.

(** The failed write itself: the file is spoilt and the error reported. *)
Lemma failed_save (f : write_failure) (w : world) :
  failed_run f w (log (Error ("Error saving todos: " ++ failure_text f)) (spoil f w)).
Proof.
  split.
  - right. simpl. apply disk_spoil.
  - exists [("Error saving todos: " ++ failure_text f)%string]. simpl. now rewrite ui_spoil.
Qed.

Lemma failed_loaded (f : write_failure) (w : world) :
  write_error w = Some f -> failed_run f w (loaded w).
Proof.
  intros He. unfold loaded, load_todos.
  destruct (disk w) as [|x|data] eqn:Hd.
  - rewrite bind_run, (save_todos_fails _ _ f He). apply failed_save.
  - split; [now left|]. now exists [("Error loading todos: " ++ x)%string].
  - apply failed_refl.
Qed.

Lemma failed_button (f : write_failure) (r : exn + list task) (k : script unit) (v : world) :
  write_error v = Some f ->
  (forall v', disk (snd (k v')) = disk v' /\ ui (snd (k v')) = ui v') ->
  failed_run f v (snd ((todos ← lift r; save_todos todos ;; k) v)).
Proof.
  intros He Hk. rewrite bind_run.
  destruct r as [x|l]; simpl; [apply failed_refl|].
  rewrite bind_run, (save_todos_fails _ _ f He). cbv beta iota.
  destruct (Hk (log (Error ("Error saving todos: " ++ failure_text f)) (spoil f v)))
    as [Hd Hu].
  destruct (failed_save f v) as [Hd' Hu'].
  split; [now rewrite Hd | now rewrite Hu].
Qed.

Lemma loaded_disk (w : world) :
  disk (loaded w)
  = match disk w, write_error w with
    | Absent, None => Holds (JArray [])
    | Absent, Some f => torn_disk f Absent
    | d, _ => d
    end.
Proof.
  unfold loaded, load_todos.
  destruct (disk w) as [|x|data] eqn:Hd; simpl; [|now rewrite Hd..].
  rewrite bind_run. unfold save_todos.
  destruct (write_error w) as [[e|e torn]|]; simpl; [exact Hd | reflexivity..].
Qed.

End StoreEdges.

(** X1.  Loading never raises and never changes the collection a later load
    returns.  It changes the file in one case only, when the file is
    missing: a missing file that can be written is created holding the empty
    array, and loading again then finds that array and changes nothing.  A
    missing file that cannot be opened for writing stays missing, and the
    failure of the write is reported; when the write fails after the file
    was opened, the file is left with a content that does not decode. *)
Theorem load_creates_missing_file (w : world) :
  stored (loaded w) = stored w
  /\ (disk w <> Absent -> disk (loaded w) = disk w)
  /\ (disk w = Absent -> write_error w = None ->
        load_todos w = (Return [], write [] w)
        /\ load_todos (write [] w) = (Return [], write [] w))
  /\ (forall e, disk w = Absent -> write_error w = Some (OpenFails e) ->
        load_todos w = (Return [], log (Error ("Error saving todos: " ++ e)) w)
        /\ disk (loaded w) = Absent)
  /\ (forall e torn, disk w = Absent -> write_error w = Some (DumpFails e torn) ->
        fst (load_todos w) = Return []
        /\ ui (loaded w) = (ui w ++ [Error ("Error saving todos: " ++ e)])%list
        /\ disk (loaded w) = Undecodable torn)
  /\ disk (loaded (loaded w)) = disk (loaded w).
Proof.
  split; [apply loaded_stored|]. split; [|split; [|split; [|split]]].
  - intros Hd. unfold loaded, load_todos.
    destruct (disk w) as [|e|data] eqn:E; [congruence| |]; simpl; now rewrite E.
  - intros Hd Hw. unfold load_todos at 1. rewrite Hd, bind_run.
    now rewrite save_todos_ok.
  - intros e Hd Hw. unfold loaded, load_todos. rewrite Hd, bind_run.
    rewrite (save_todos_fails _ _ _ Hw). simpl. now rewrite Hd.
  - intros e torn Hd Hw. unfold loaded, load_todos. rewrite Hd, bind_run.
    rewrite (save_todos_fails _ _ _ Hw). now repeat split.
  - rewrite (loaded_disk (loaded w)), loaded_write_error, loaded_disk.
    destruct (disk w), (write_error w) as [[?|? ?]|]; reflexivity.
Qed.

Lemma load_creates_missing_file_witness :
  load_todos {| disk := Absent; write_error := None; editing := ∅; ui := [] |}
  = (Return [], world_of []).
Proof.
  exact (proj1 (proj1 (proj2 (proj2 (load_creates_missing_file
           {| disk := Absent; write_error := None; editing := ∅; ui := [] |})))
         eq_refl eq_refl)).
Defined.

(** X2.  When writing the file fails, no operation stores a collection other
    than the one that was there: after the run the file is as it was, or as
    the failed write left it.  If the file could not be opened it is as it
    was, whatever the operation; if the write failed after the file was
    opened, the file no longer decodes and the collection is lost, as after
    any add with a title.  In both cases the run adds error notices only,
    and no success is reported. *)
Theorem failed_write_keeps_or_tears (o : op) (w : world) (f : write_failure) :
  write_error w = Some f ->
  (exists errs, ui (exec o w) = (ui w ++ map Error errs)%list)
  /\ (stored (exec o w) = stored w \/ stored (exec o w) = [])
  /\ (forall e, f = OpenFails e -> disk (exec o w) = disk w)
  /\ (forall e torn, f = DumpFails e torn ->
        (disk (exec o w) = disk w \/ disk (exec o w) = Undecodable torn)
        /\ forall a p c, strip a <> "" ->
             disk (exec (Add a p c) w) = Undecodable torn
             /\ stored (exec (Add a p c) w) = []).
Proof.
  intros He.
  assert (He' : write_error (loaded w) = Some f) by now rewrite loaded_write_error.
  assert (Hl : failed_run f w (loaded w)) by now apply failed_loaded.
  assert (H : failed_run f w (exec o w)).
  { unfold exec.
    destruct o as [ttl p c|target|target|target nt nc np|target|]; cbn [perform].
    - destruct (string_dec (strip ttl) "") as [E|E].
      + rewrite add_run_blank by exact E.
        split; [now left | now exists ["Please enter a to-do title!"]].
      + rewrite add_run by exact E. rewrite He.
        apply (failed_trans f w (loaded w)); [exact Hl | apply failed_save].
    - rewrite view_run.
      apply (failed_trans f w (loaded w)); [exact Hl | now apply failed_button].
    - rewrite view_run.
      apply (failed_trans f w (loaded w)); [exact Hl | now apply failed_button].
    - rewrite view_run.
      destruct (edit_row_cases target nt nc np (stored w) (loaded w))
        as [->|(todo & x & _ & _ & ->)]; [|exact Hl].
      apply (failed_trans f w (loaded w)); [exact Hl | now apply failed_button].
    - rewrite view_run.
      apply (failed_trans f w (loaded w)); [exact Hl | now apply failed_button].
    - rewrite view_run. unfold clear_button. cbv zeta. rewrite bind_run.
      rewrite (save_todos_fails _ _ f He'). cbv beta iota. unfold st_rerun. cbn [snd].
      apply (failed_trans f w (loaded w)); [exact Hl | apply failed_save]. }
  destruct H as [Hd Hu].
  split; [exact Hu|]. split; [|split].
  - unfold stored.
    destruct Hd as [Hd|Hd]; rewrite Hd; [now left|].
    destruct f; simpl; auto.
  - intros e ->. now destruct Hd.
  - intros e torn ->. split; [exact Hd|].
    intros a p c E. unfold exec. cbn [perform].
    rewrite add_run by exact E. rewrite He. cbn [snd].
    unfold stored. now simpl.
Qed.

Lemma failed_write_keeps_or_tears_witness :
  disk (exec ClearCompleted
          {| disk := Holds (JArray three_items);
             write_error := Some (DumpFails "No space left on device" "[");
             editing := ∅; ui := [] |})
  = Undecodable "["
  /\ disk (exec (Delete 2)
             {| disk := Holds (JArray three_items);
                write_error := Some (OpenFails "Permission denied");
                editing := ∅; ui := [] |})
     = Holds (JArray three_items).
Proof.
  split.
  - destruct (proj1 (proj2 (proj2 (proj2 (failed_write_keeps_or_tears ClearCompleted
        {| disk := Holds (JArray three_items);
           write_error := Some (DumpFails "No space left on device" "[");
           editing := ∅; ui := [] |} _ eq_refl))) _ _ eq_refl)) as [H|H];
      [reflexivity | exact H].
  - exact (proj1 (proj2 (proj2 (failed_write_keeps_or_tears (Delete 2)
        {| disk := Holds (JArray three_items);
           write_error := Some (OpenFails "Permission denied");
           editing := ∅; ui := [] |} _ eq_refl))) _ eq_refl).
Defined.

(** ** Deleting, and the loops once more *)

Section Deleting.

Variable target : Z.

Lemma without_keyed (todos : list task) :
  keyed todos = true ->
  without target todos = inr (List.filter (fun t => negb (get_id t =? target)) todos).
Proof.
  induction todos as [|t rest IH]; intros Hk; [reflexivity|].
  apply keyed_cons in Hk as [[i Hi] Hk]. simpl.
  unfold get_id at 1. rewrite Hi, (IH Hk). simpl.
  now destruct (i =? target).
Qed.

Lemma without_missing_id (todos : list task) :
  keyed todos = false -> without target todos = inl (KeyError "id").
Proof.
  induction todos as [|t rest IH]; simpl; [discriminate|].
  unfold keyed. simpl. unfold has_id at 1.
  destruct (tid t) as [i|]; [|reflexivity]. simpl.
  intros Hk. now rewrite (IH Hk).
Qed.

Lemma filter_id_absent (todos : list task) :
  ~ In target (ids todos) ->
  List.filter (fun t => negb (get_id t =? target)) todos = todos.
Proof.
  induction todos as [|t rest IH]; simpl; [reflexivity|].
  intros Hn. destruct (Z.eqb_spec (get_id t) target) as [E|E]; simpl.
  - tauto.
  - rewrite IH; tauto.
Qed.

Lemma filter_id_gone (todos : list task) :
  ~ In target (ids (List.filter (fun t => negb (get_id t =? target)) todos)).
Proof.
  unfold ids. rewrite in_map_iff. intros (t & E & Hin).
  apply filter_In in Hin as [_ Hin]. rewrite E, Z.eqb_refl in Hin. discriminate.
Qed.

Lemma filter_id_unique (todos : list task) :
  unique_ids todos -> In target (ids todos) ->
  S (length (List.filter (fun t => negb (get_id t =? target)) todos)) = length todos.
Proof.
  unfold unique_ids, ids.
  induction todos as [|t rest IH]; simpl; [tauto|].
  intros Hu Hin. apply NoDup_cons in Hu as [Hn Hu].
  destruct (Z.eqb_spec (get_id t) target) as [E|E]; simpl.
  - f_equal. rewrite filter_id_absent; [reflexivity|]. unfold ids. rewrite <- E.
    intros H. apply Hn. now apply list_elem_of_In.
  - f_equal. apply IH; [exact Hu|]. destruct Hin; [contradiction|assumption].
Qed.

(** The loop stops at the first task with the id: what follows it is not
    read. *)
Lemma update_first_stops (body : task -> task) (pre post : list task) (t : task) :
  keyed pre = true -> ~ In target (ids pre) -> tid t = Some target ->
  update_first target body (pre ++ t :: post) = inr (pre ++ body t :: post)%list.
Proof.
  induction pre as [|p pre IH]; intros Hk Hn Ht; simpl.
  - now rewrite Ht, Z.eqb_refl.
  - apply keyed_cons in Hk as [[i Hi] Hk]. simpl in Hn.
    unfold get_id in Hn at 1. rewrite Hi in *. simpl in Hn.
    destruct (Z.eqb_spec i target) as [->|Hne]; [tauto|].
    rewrite IH; [reflexivity | exact Hk | tauto | exact Ht].
Qed.

Lemma keyed_app (l l' : list task) : keyed (l ++ l') = keyed l && keyed l'.
Proof. unfold keyed. apply forallb_app. Qed.

End Deleting.

(** X3.  In a collection whose tasks all carry an id, "Delete" keeps, in
    their order, exactly the tasks whose id is not the one of the row: no
    task with that id is left, an id that no task has removes nothing, and
    with pairwise distinct ids exactly one task goes. *)
Theorem delete_removes_every_match (target : Z) (todos : list task) :
  keyed todos = true ->
  exists rest,
    without target todos = inr rest
    /\ rest = List.filter (fun t => negb (get_id t =? target)) todos
    /\ ~ In target (ids rest)
    /\ (forall t, In t rest <-> In t todos /\ get_id t <> target)
    /\ (~ In target (ids todos) -> rest = todos)
    /\ (unique_ids todos -> In target (ids todos) -> S (length rest) = length todos)
    /\ without target rest = inr rest.
Proof.
  intros Hk. eexists. split; [now apply without_keyed|]. split; [reflexivity|].
  split; [apply filter_id_gone|]. split; [|split; [|split]].
  - intros t. rewrite filter_In, negb_true_iff, Z.eqb_neq. tauto.
  - apply filter_id_absent.
  - apply filter_id_unique.
  - rewrite without_keyed.
    + f_equal. apply filter_id_absent, filter_id_gone.
    + unfold keyed in *. rewrite forallb_forall in *.
      intros t Hin. apply filter_In in Hin as [Hin _]. now apply Hk.
Qed.

Lemma delete_removes_every_match_witness :
  exists rest, without 2 three_items = inr rest /\ ~ In 2 (ids rest).
Proof.
  destruct (delete_removes_every_match 2 three_items eq_refl)
    as (rest & E & _ & Hn & _).
  exists rest. split; [exact E | exact Hn].
Defined.

(** X4.  "Delete" reads the id of every task of the collection: it computes
    a list exactly when every task carries the key, and raises
    [KeyError: 'id'] as soon as one task lacks it, wherever that task is and
    whether or not some task has the id of the row. *)
Theorem delete_reads_every_id (target : Z) (todos : list task) :
  (keyed todos = true <-> exists rest, without target todos = inr rest)
  /\ (keyed todos = false <-> without target todos = inl (KeyError "id")).
Proof.
  destruct (keyed todos) eqn:Hk.
  - rewrite (without_keyed target todos Hk). split; split; intros H;
      try reflexivity; try discriminate; eauto.
  - rewrite (without_missing_id target todos Hk). split; split; intros H;
      try reflexivity; try discriminate.
    destruct H as [rest H]. discriminate.
Qed.

(** X5.  The loops of "Mark as complete", "Mark as incomplete" and "Save"
    stop at the first task with the id of the row.  When the tasks before it
    carry an id, that first task is updated and nothing after it is read:
    a later task with the same id is left as it is, and a later task without
    an id raises nothing, where "Delete" on the same collection raises. *)
Theorem update_stops_at_first_match (target : Z) (body : task -> task)
    (pre post : list task) (t : task) :
  keyed pre = true -> ~ In target (ids pre) -> tid t = Some target ->
  update_first target body (pre ++ t :: post) = inr (pre ++ body t :: post)%list
  /\ (keyed post = false ->
      without target (pre ++ t :: post) = inl (KeyError "id")).
Proof.
  intros Hk Hn Ht. split; [now apply update_first_stops|].
  intros Hpost. apply without_missing_id.
  rewrite keyed_app, Hk. unfold keyed in *. simpl.
  rewrite Hpost. apply andb_false_r.
Qed.

Lemma update_stops_at_first_match_witness :
  update_first 2 (set_completed true)
    ([item 1 "a" Low "" false] ++ item 2 "b" High "" false
       :: [item 2 "again" Low "" false; work_high])%list
  = inr [item 1 "a" Low "" false; item 2 "b" High "" true;
         item 2 "again" Low "" false; work_high].
Proof.
  apply (update_stops_at_first_match 2 (set_completed true)
           [item 1 "a" Low "" false] [item 2 "again" Low "" false; work_high]
           (item 2 "b" High "" false)).
  - reflexivity.
  - intros [H|[]]. discriminate H.
  - reflexivity.
Defined.

(** X6.  In a collection whose tasks all carry an id, marking a row and then
    marking it again gives what the second marking alone gives: "complete"
    twice is "complete" once, and "incomplete" after "complete" is
    "incomplete".  Neither raises, and both keep every id. *)
Theorem toggles_compose (target : Z) (todos : list task) (a b : bool) :
  keyed todos = true ->
  exists once,
    update_first target (set_completed a) todos = inr once
    /\ keyed once = true
    /\ ids once = ids todos
    /\ update_first target (set_completed b) once
       = update_first target (set_completed b) todos
    /\ update_first target (set_completed a) once = inr once.
Proof.
  intros Hk.
  destruct (in_dec Z.eq_dec target (ids todos)) as [Hin|Hn].
  - destruct (update_first_present target todos Hk Hin)
      as (pre & t & post & -> & Ht & Hpre & Hbody).
    exists (pre ++ set_completed a t :: post)%list.
    rewrite keyed_app in Hk. apply andb_true_iff in Hk as [Hkpre Hkpost].
    split; [apply Hbody|]. split; [|split; [|split]].
    + rewrite keyed_app, Hkpre. simpl. exact Hkpost.
    + unfold ids. rewrite !map_app. reflexivity.
    + rewrite Hbody.
      now rewrite (update_first_stops target _ pre post (set_completed a t) Hkpre Hpre Ht).
    + now rewrite (update_first_stops target _ pre post (set_completed a t) Hkpre Hpre Ht).
  - exists todos.
    rewrite !(update_first_absent target _ todos Hk Hn). now repeat split.
Qed.

Lemma toggles_compose_witness :
  exists once,
    update_first 2 (set_completed true) three_items = inr once
    /\ update_first 2 (set_completed false) once = inr three_items.
Proof.
  destruct (toggles_compose 2 three_items true false eq_refl)
    as (once & E & _ & _ & E' & _).
  exists once. split; [exact E | exact E'].
Defined.

(** ** The two views *)

Section Views.

Lemma filter_sublist {A : Type} (p : A -> bool) (l : list A) :
  List.filter p l `sublist_of` l.
Proof.
  induction l as [|x l IH]; simpl; [constructor|].
  destruct (p x); now constructor.
Qed.

Lemma filter_filter_same {A : Type} (p : A -> bool) (l : list A) :
  List.filter p (List.filter p l) = List.filter p l.
Proof.
  rewrite filter_twice. apply filter_ext. intros x. now destruct (p x).
Qed.

Lemma filter_swap {A : Type} (p q : A -> bool) (l : list A) :
  List.filter p (List.filter q l) = List.filter q (List.filter p l).
Proof.
  rewrite !filter_twice. apply filter_ext. intros x. apply andb_comm.
Qed.

Lemma filter_split_length {A : Type} (p : A -> bool) (l : list A) :
  (length (List.filter (fun x => negb (p x)) l) + length (List.filter p l))%nat
  = length l.
Proof.
  induction l as [|x l IH]; simpl; [reflexivity|].
  destruct (p x); simpl; lia.
Qed.

Lemma truthy_field_spec (v : option string) :
  truthy_field v = true <-> exists s, v = Some s /\ s <> "".
Proof.
  destruct v as [s|]; simpl.
  - rewrite truthy_true. split; [eauto|]. now intros (s' & [= <-] & H).
  - split; [discriminate|]. now intros (s & H & _).
Qed.

End Views.

(** X7.  The active view and the completed view split the collection: every
    task is in exactly one of the two lists, each list keeps the order of the
    collection, and their lengths add up to its length. *)
Theorem views_split_the_collection (todos : list task) :
  (length (active_todos todos) + length (completed_todos todos))%nat = length todos
  /\ (forall t, In t todos <-> In t (active_todos todos) \/ In t (completed_todos todos))
  /\ (forall t, In t (active_todos todos) -> ~ In t (completed_todos todos))
  /\ active_todos todos `sublist_of` todos
  /\ completed_todos todos `sublist_of` todos
  /\ (active_todos todos ++ completed_todos todos)%list ≡ₚ todos.
Proof.
  unfold active_todos, completed_todos.
  split; [apply filter_split_length|]. split; [|split; [|split; [|split]]].
  - intros t. rewrite !filter_In. destruct (get_completed t); simpl; intuition congruence.
  - intros t. rewrite !filter_In. intros [_ H1] [_ H2]. rewrite H2 in H1. discriminate.
  - apply filter_sublist.
  - apply filter_sublist.
  - induction todos as [|t l IH]; simpl; [reflexivity|].
    destruct (get_completed t); simpl.
    + etransitivity; [symmetry; apply Permutation_middle|].
      now apply perm_skip.
    + now apply perm_skip.
Qed.

(** X8.  Once "Clear All Completed" has saved, the completed view has
    nothing to show and the active view shows what it showed before;
    pressing the button again, were it there, would change nothing. *)
Theorem clear_empties_the_completed_view (w : world) :
  write_error w = None ->
  completed_todos (stored (exec ClearCompleted w)) = []
  /\ active_todos (stored (exec ClearCompleted w)) = active_todos (stored w)
  /\ stored (exec ClearCompleted w) = active_todos (stored w)
  /\ stored (exec ClearCompleted (exec ClearCompleted w)) = stored (exec ClearCompleted w).
Proof.
  intros Hw.
  assert (E : forall v, write_error v = None ->
                stored (exec ClearCompleted v) = active_todos (stored v)).
  { intros v Hv. unfold exec. cbn [perform]. rewrite view_run.
    unfold clear_button. cbv zeta. rewrite bind_run.
    rewrite save_todos_ok by now rewrite loaded_write_error. reflexivity. }
  rewrite (E (exec ClearCompleted w)) by now rewrite exec_write_error.
  rewrite (E w Hw). unfold active_todos, completed_todos.
  split; [|split; [|split]].
  - rewrite filter_twice.
    induction (stored w) as [|t l IH]; simpl; [reflexivity|].
    now destruct (get_completed t).
  - apply filter_filter_same.
  - reflexivity.
  - apply filter_filter_same.
Qed.

Lemma clear_empties_the_completed_view_witness :
  completed_todos (stored (exec ClearCompleted (world_of four_tasks))) = [].
Proof.
  exact (proj1 (clear_empties_the_completed_view (world_of four_tasks) eq_refl)).
Defined.

(** X9.  The filters only ever hide rows: what they leave is a sublist of
    the list they are given, so the caption never counts more rows than the
    view has.  Filtering what is already filtered changes nothing, the order
    of the two filters does not matter, and filtering commutes with the
    split into active and completed tasks. *)
Theorem filters_only_hide (filter_category filter_priority : list string)
    (todos : list task) :
  filtered_todos filter_category filter_priority todos `sublist_of` todos
  /\ (length (filtered_todos filter_category filter_priority todos) <= length todos)%nat
  /\ filtered_todos filter_category filter_priority
       (filtered_todos filter_category filter_priority todos)
     = filtered_todos filter_category filter_priority todos
  /\ filtered_todos filter_category filter_priority todos
     = filtered_todos filter_category [] (filtered_todos [] filter_priority todos)
  /\ filtered_todos filter_category filter_priority (active_todos todos)
     = active_todos (filtered_todos filter_category filter_priority todos)
  /\ filtered_todos filter_category filter_priority (completed_todos todos)
     = completed_todos (filtered_todos filter_category filter_priority todos).
Proof.
  rewrite !filtered_todos_filter.
  split; [apply filter_sublist|]. split; [apply sublist_length, filter_sublist|].
  split; [apply filter_filter_same|]. split; [|split].
  - rewrite filter_twice. apply filter_ext. intros t. cbn [is_nil orb].
    rewrite andb_true_r. apply andb_comm.
  - unfold active_todos. apply filter_swap.
  - unfold completed_todos. apply filter_swap.
Qed.

(** X10.  The options of the category filter are exactly the non-empty
    categories of the tasks of the view.  So as soon as one category is
    selected, every row left has a non-empty category: a task with no
    category, or an empty one, is hidden whatever is selected. *)
Theorem category_filter_hides_uncategorized (filter_category filter_priority : list string)
    (todos : list task) :
  (forall c, c ∈ category_options todos <->
             c <> "" /\ exists t, In t todos /\ category t = Some c)
  /\ (filter_category <> [] ->
      (forall c, In c filter_category -> c ∈ category_options todos) ->
      forall t, In t (filtered_todos filter_category filter_priority todos) ->
                exists c, category t = Some c /\ c <> "" /\ In c filter_category).
Proof.
  assert (Hopt : forall c, c ∈ category_options todos <->
                           c <> "" /\ exists t, In t todos /\ category t = Some c).
  { intros c. unfold category_options.
    rewrite elem_of_list_to_set, list_elem_of_In, in_map_iff. split.
    - intros (t & E & Hin). apply filter_In in Hin as [Hin Ht].
      apply truthy_field_spec in Ht as (s & Hs & Hne). rewrite Hs in E. simpl in E.
      subst s. eauto.
    - intros (Hne & t & Hin & Hc). exists t. rewrite Hc. split; [reflexivity|].
      apply filter_In. split; [exact Hin|]. apply truthy_field_spec. eauto. }
  split; [exact Hopt|].
  intros Hne Hsub t Hin.
  rewrite filtered_todos_filter in Hin. apply filter_In in Hin as [_ Hin].
  apply andb_true_iff in Hin as [Hin _]. apply orb_true_iff in Hin as [Hin|Hin].
  - destruct filter_category; [contradiction | discriminate].
  - apply selected_spec in Hin as (c & Hc & Hsel).
    exists c. split; [exact Hc|]. split; [|exact Hsel].
    now apply Hsub, Hopt in Hsel as [Hcne _].
Qed.

(** ** The charts and the cards *)

Section Charts.

Lemma bars_insert (counts : gmap string nat) (v : string) (n : nat) :
  counts !! v = None -> bars (<[v := n]> counts) = (n + bars counts)%nat.
Proof.
  intros Hv. unfold bars. rewrite map_fold_insert_L; [reflexivity | | exact Hv].
  intros. lia.
Qed.

Lemma bars_delete (counts : gmap string nat) (v : string) (n : nat) :
  counts !! v = Some n -> bars counts = (n + bars (delete v counts))%nat.
Proof.
  intros Hv. unfold bars. rewrite (map_fold_delete_L _ _ v n counts); [reflexivity | | exact Hv].
  intros. lia.
Qed.

(** A histogram has one unit of bar per value counted. *)
Lemma bars_value_counts (values : list string) : bars (value_counts values) = length values.
Proof.
  induction values as [|v l IH]; simpl; [reflexivity|].
  destruct (value_counts l !! v) as [n|] eqn:Hv; simpl.
  - rewrite <- insert_delete_eq, bars_insert by apply lookup_delete_eq.
    rewrite (bars_delete _ v n Hv) in IH. lia.
  - rewrite bars_insert by exact Hv. now rewrite IH.
Qed.

Lemma occurrences (values : list string) (v : string) :
  default 0%nat (value_counts values !! v) = length (List.filter (String.eqb v) values).
Proof. rewrite value_counts_lookup. now destruct (length _). Qed.

End Charts.

(** X11.  Each of the three charts accounts for every task once: the bars of
    the priority chart, of the category chart and of the status chart each
    add up to the number of tasks.  The status chart agrees with the
    metrics: its bar "Completed" is the metric "Completed" and its bar
    "Active" is the metric "Remaining". *)
Theorem charts_count_every_task (todos : list task) :
  bars (value_counts (priority_column todos)) = length todos
  /\ bars (value_counts (category_column todos)) = length todos
  /\ bars (value_counts (status_column todos)) = length todos
  /\ default 0%nat (value_counts (status_column todos) !! "Completed")
     = length (List.filter get_completed todos)
  /\ default 0%nat (value_counts (status_column todos) !! "Active")
     = (length todos - length (List.filter get_completed todos))%nat.
Proof.
  rewrite !bars_value_counts.
  unfold priority_column, category_column, status_column. rewrite !length_map.
  split; [reflexivity|]. split; [reflexivity|]. split; [reflexivity|].
  rewrite !occurrences, !filter_map_length.
  assert (Hc : List.filter (fun t => String.eqb "Completed"
                              (if default false (completed t) then "Completed" else "Active"))
                 todos = List.filter get_completed todos).
  { apply filter_ext. intros t. unfold get_completed.
    now destruct (default false (completed t)). }
  assert (Ha : List.filter (fun t => String.eqb "Active"
                              (if default false (completed t) then "Completed" else "Active"))
                 todos = List.filter (fun t => negb (get_completed t)) todos).
  { apply filter_ext. intros t. unfold get_completed.
    now destruct (default false (completed t)). }
  rewrite Hc, Ha. split; [reflexivity|].
  pose proof (filter_split_length get_completed todos). lia.
Qed.

(** X12.  A card and the charts name a task alike: the priority a card shows
    is the value the priority chart counts the task under ("Low" when the
    task has none), and the category it shows is the value the category
    chart counts it under ("Uncategorized" when the task has none or an
    empty one).  The card is styled as low priority for every priority that
    is not "High" or "Medium", known or not. *)
Theorem cards_agree_with_charts (todos : list task) :
  map (fun t => card_priority (render_card t)) todos = priority_column todos
  /\ map (fun t => card_category (render_card t)) todos = category_column todos
  /\ (forall t, card_priority (render_card t) <> "High" ->
                card_priority (render_card t) <> "Medium" ->
                card_class (render_card t) = "priority-low"
                /\ card_emoji (render_card t) = "🟢")
  /\ (forall t, priority t = Some "High" -> card_class (render_card t) = "priority-high")
  /\ (forall t, priority t = Some "Medium" -> card_class (render_card t) = "priority-medium")
  /\ (forall t, title t = None -> card_title (render_card t) = "Untitled").
Proof.
  split; [reflexivity|]. split; [|split; [|split; [|split]]].
  - unfold category_column. apply map_ext. intros t. unfold render_card. simpl.
    destruct (category t) as [c|]; simpl; [|reflexivity].
    now destruct (truthy c).
  - intros t. unfold render_card. simpl. intros Hh Hm.
    unfold priority_color, priority_emoji.
    rewrite !lookup_insert_ne by congruence.
    destruct (string_dec (default "Low" (priority t)) "Low") as [->|Hl].
    + now rewrite !lookup_insert_eq.
    + rewrite !lookup_insert_ne by congruence. now rewrite !lookup_empty.
  - intros t Ht. unfold render_card. simpl. now rewrite Ht.
  - intros t Ht. unfold render_card. simpl. now rewrite Ht.
  - intros t Ht. unfold render_card. simpl. now rewrite Ht.
Qed.

(** ** What every run keeps *)

Section Invariants.

Lemma sorted_filter (keep : task -> bool) (todos : list task) :
  StronglySorted Z.lt (ids todos) -> StronglySorted Z.lt (ids (List.filter keep todos)).
Proof.
  unfold ids. induction todos as [|t l IH]; simpl; [trivial|].
  rewrite StronglySorted_cons. intros [Hall Hs].
  destruct (keep t); simpl; [|auto].
  apply StronglySorted_cons. split; [|auto].
  rewrite List.Forall_forall in *. intros i Hi. apply Hall.
  apply in_map_iff in Hi as (t' & <- & Hin). apply filter_In in Hin as [Hin _].
  now apply in_map.
Qed.

Lemma change_sorted (l l' : list task) :
  change l l' -> StronglySorted Z.lt (ids l) -> StronglySorted Z.lt (ids l').
Proof.
  intros [l0|l0 t Ht|l0 l1 E|l0 keep] Hs.
  - exact Hs.
  - rewrite ids_app. apply StronglySorted_app. split; [|split].
    + intros i j Hi Hj. apply list_elem_of_In in Hi, Hj.
      destruct Hj as [<-|[]]. unfold get_id. rewrite Ht. simpl. now apply ids_above.
    + exact Hs.
    + repeat constructor.
  - now rewrite (ids_tid l1 l0 E).
  - now apply sorted_filter.
Qed.

Lemma update_first_In (target : Z) (body : task -> task) (todos todos' : list task) (t' : task) :
  update_first target body todos = inr todos' -> In t' todos' ->
  In t' todos \/ exists t, In t todos /\ t' = body t.
Proof.
  revert todos'. induction todos as [|t rest IH]; intros todos'; simpl.
  - intros [= <-] [].
  - destruct (tid t) as [i|]; [|discriminate]. destruct (i =? target).
    + intros [= <-] [<-|Hin]; [right; eauto | left; now right].
    + destruct (update_first target body rest) as [e|rest']; [discriminate|].
      intros [= <-] [<-|Hin]; [left; now left|].
      destruct (IH rest' eq_refl Hin) as [H|(t0 & H & E)]; [left; now right|].
      right. exists t0. split; [now right | exact E].
Qed.

(** Every task stored after an operation has one of the four origins. *)
Lemma exec_origin (o : op) (w : world) (t' : task) :
  In t' (stored (exec o w)) -> origin (stored w) t'.
Proof.
  assert (Hb : forall (body : task -> task) (target : Z) (k : script unit),
             (forall v, stored (snd (k v)) = stored v) ->
             (forall t, In t (stored w) -> origin (stored w) (body t)) ->
             In t' (stored (snd ((todos ← lift (update_first target body (stored w));
                                   save_todos todos ;; k) (loaded w)))) ->
             origin (stored w) t').
  { intros body target k Hk Hbody.
    destruct (button_stored (update_first target body (stored w)) k (loaded w) Hk)
      as [E|[E|(l & E1 & _ & E2)]]; simpl in *; rewrite ?E, ?E2, ?loaded_stored.
    - now apply Kept.
    - intros [].
    - intros Hin. destruct (update_first_In _ _ _ _ _ E1 Hin) as [H|(t & H & ->)];
        [now apply Kept | now apply Hbody]. }
  unfold exec.
  destruct o as [ttl p c|target|target|target nt nc np|target|]; cbn [perform].
  - destruct (string_dec (strip ttl) "") as [E|E].
    + rewrite add_run_blank by exact E. apply Kept.
    + rewrite add_run by exact E. destruct (write_error w) as [f|]; cbv zeta; cbn [snd].
      * rewrite stored_log.
        destruct (stored_spoil f (loaded w)) as [E'|E']; rewrite E', ?loaded_stored;
          [apply Kept | intros []].
      * rewrite stored_log, stored_write.
        intros Hin. apply in_app_or in Hin as [Hin|[<-|[]]]; [now apply Kept|].
        now apply Created.
  - rewrite view_run. apply (Hb _ target (@st_rerun unit)); [reflexivity|].
    intros t. apply Toggled.
  - rewrite view_run. apply (Hb _ target (@st_rerun unit)); [reflexivity|].
    intros t. apply Toggled.
  - rewrite view_run.
    destruct (edit_row_cases target nt nc np (stored w) (loaded w))
      as [->|(todo & x & _ & _ & ->)]; [|cbn [snd]; rewrite loaded_stored; apply Kept].
    apply (Hb _ target (set_editing target false ;; @st_rerun unit)); [reflexivity|].
    intros t. apply Edited.
  - rewrite view_run. unfold delete_button.
    destruct (button_stored (without target (stored w)) (@st_rerun unit) (loaded w) rerun_stored)
      as [E|[E|(l & E1 & _ & E2)]]; simpl in *; rewrite ?E, ?E2, ?loaded_stored.
    + apply Kept.
    + intros [].
    + rewrite (without_filter _ _ _ E1). intros Hin. apply filter_In in Hin as [Hin _].
      now apply Kept.
  - rewrite view_run. unfold clear_button. cbv zeta. rewrite bind_run.
    destruct (write_error w) as [f|] eqn:He.
    + assert (He' : write_error (loaded w) = Some f) by now rewrite loaded_write_error.
      rewrite (save_todos_fails _ _ f He'). cbv beta iota. unfold st_rerun. cbn [snd].
      rewrite stored_log.
      destruct (stored_spoil f (loaded w)) as [E'|E']; rewrite E', ?loaded_stored;
        [apply Kept | intros []].
    + assert (He' : write_error (loaded w) = None) by now rewrite loaded_write_error.
      rewrite (save_todos_ok _ _ He'). cbv beta iota. unfold st_rerun. cbn [snd].
      rewrite stored_write.
      unfold clear_completed. intros Hin. apply filter_In in Hin as [Hin _].
      now apply Kept.
Qed.

Lemma rstrip_twice (s : string) : rstrip (rstrip s) = rstrip s.
Proof.
  induction s as [|c s IH]; simpl; [reflexivity|].
  destruct (rstrip s) as [|d r] eqn:Hr.
  - destruct (isspace c) eqn:Hc; simpl; [reflexivity | now rewrite Hc].
  - change (rstrip (String c (String d r))) with
      (match rstrip (String d r) with
       | EmptyString => if isspace c then EmptyString else String c EmptyString
       | r' => String c r'
       end).
    now rewrite IH.
Qed.

Lemma lstrip_rstrip (s : string) : lstrip s = s -> lstrip (rstrip s) = rstrip s.
Proof.
  destruct s as [|c s]; simpl; [reflexivity|].
  destruct (isspace c) eqn:Hc.
  - intros H. exfalso.
    assert (Hl : (String.length (lstrip s) <= String.length s)%nat).
    { clear. induction s as [|d s IH]; simpl; [lia|].
      destruct (isspace d); simpl; lia. }
    rewrite H in Hl. simpl in Hl. lia.
  - intros _. destruct (rstrip s); simpl; now rewrite Hc.
Qed.

Lemma lstrip_twice (s : string) : lstrip (lstrip s) = lstrip s.
Proof.
  induction s as [|c s IH]; simpl; [reflexivity|].
  destruct (isspace c) eqn:Hc; [exact IH|]. simpl. now rewrite Hc.
Qed.

(** Trimming a second time changes nothing. *)
Lemma strip_twice (s : string) : strip (strip s) = strip s.
Proof.
  unfold strip. rewrite (lstrip_rstrip (lstrip s)) by apply lstrip_twice.
  apply rstrip_twice.
Qed.

Lemma trimmed_strip (s : string) : trimmed (strip s) = true.
Proof. unfold trimmed. rewrite strip_twice. apply String.eqb_refl. Qed.

Lemma label_option (p : priority_choice) :
  existsb (String.eqb (label p)) (map label priority_options) = true.
Proof. now destruct p. Qed.

End Invariants.

Section NextId.

Lemma get_next_id_attained (todos : list task) :
  todos <> [] -> exists t, In t todos /\ get_next_id todos = get_id t + 1.
Proof.
  destruct todos as [|t0 rest]; [congruence|]. intros _. simpl.
  destruct (py_max_attained (map get_id rest) (get_id t0)) as [E|Hin].
  - exists t0. split; [now left | now rewrite <- E].
  - apply in_map_iff in Hin as (t & E & Hin). exists t. split; [now right | now rewrite E].
Qed.

(** After a task with the next id is appended, the next id is one more. *)
Lemma get_next_id_snoc (todos : list task) (t : task) :
  get_id t = get_next_id todos -> get_next_id (todos ++ [t]) = get_next_id todos + 1.
Proof.
  intros Ht.
  destruct (get_next_id_attained (todos ++ [t])) as (t0 & Hin & E).
  { now destruct todos. }
  assert (Hgt : get_id t < get_next_id (todos ++ [t])).
  { apply get_next_id_above, in_or_app. right. now left. }
  apply in_app_or in Hin as [Hin|[<-|[]]].
  - apply get_next_id_above in Hin. lia.
  - lia.
Qed.

End NextId.

(** X13.  The stored collection stays in the order of its ids: when the ids
    increase strictly along the collection, they still do after any sequence
    of operations, and the id the next add assigns is one more than the id
    of the last task. *)
Theorem ids_stay_increasing (ops : list op) (w : world) :
  StronglySorted Z.lt (ids (stored w)) ->
  StronglySorted Z.lt (ids (stored (run ops w)))
  /\ (forall l t, stored (run ops w) = (l ++ [t])%list ->
        get_next_id (stored (run ops w)) = get_id t + 1).
Proof.
  intros Hs.
  assert (Hr : StronglySorted Z.lt (ids (stored (run ops w)))).
  { apply (run_invariant (fun l => StronglySorted Z.lt (ids l))); [|exact Hs].
    exact change_sorted. }
  split; [exact Hr|]. intros l t E. rewrite E in *.
  destruct (get_next_id_attained (l ++ [t])) as (t0 & Hin & E0).
  { now destruct l. }
  rewrite E0. f_equal.
  assert (Hgt : get_id t < get_id t0 + 1).
  { rewrite <- E0. apply get_next_id_above, in_or_app. right. now left. }
  apply in_app_or in Hin as [Hin|[<-|[]]]; [|reflexivity].
  rewrite ids_app in Hr. apply StronglySorted_app in Hr as (Hlt & _ & _).
  assert (get_id t0 < get_id t); [|lia].
  apply Hlt; apply list_elem_of_In; [now apply in_map | now left].
Qed.

Lemma ids_stay_increasing_witness :
  StronglySorted Z.lt
    (ids (stored (run [Delete 2; Add "d" Low ""; Complete 3] (world_of three_items)))).
Proof.
  apply (ids_stay_increasing [Delete 2; Add "d" Low ""; Complete 3] (world_of three_items)).
  repeat constructor.
Defined.

(** X14.  As long as the file can be written and nothing is deleted or
    cleared, the ids the adds assign increase strictly, whatever is
    completed, uncompleted or edited in between; in particular they are
    pairwise distinct. *)
Theorem adds_without_removal_assign_increasing_ids (ops : list op) (w : world) :
  write_error w = None ->
  forallb (fun o => negb (removes o)) ops = true ->
  StronglySorted Z.lt (assigned_ids ops w) /\ NoDup (assigned_ids ops w).
Proof.
  intros Hw Hr.
  pose proof (assigned_increasing ops w Hw Hr) as Hs.
  split; [exact Hs | now apply sorted_NoDup].
Qed.

Lemma adds_without_removal_assign_increasing_ids_witness :
  StronglySorted Z.lt
    (assigned_ids [Add "x" Low ""; Complete 1; Add "y" High "Work"; Edit 4 "z" "" Low;
                   Add "w" Medium ""] (world_of three_items)).
Proof.
  exact (proj1 (adds_without_removal_assign_increasing_ids
           [Add "x" Low ""; Complete 1; Add "y" High "Work"; Edit 4 "z" "" Low;
            Add "w" Medium ""] (world_of three_items) eq_refl eq_refl)).
Defined.

(** X15.  Two adds in a row assign consecutive ids: when the first is saved,
    the second assigns the id of the first plus one. *)
Theorem adds_in_a_row_assign_consecutive_ids (w : world)
    (a c a' c' : string) (p p' : priority_choice) :
  write_error w = None -> strip a <> "" -> strip a' <> "" ->
  assigned (Add a p c) w = Some (get_next_id (stored w))
  /\ assigned (Add a' p' c') (exec (Add a p c) w) = Some (get_next_id (stored w) + 1)
  /\ ids (stored (exec (Add a' p' c') (exec (Add a p c) w)))
     = (ids (stored w) ++ [get_next_id (stored w); get_next_id (stored w) + 1])%list.
Proof.
  intros Hw Ha Ha'.
  assert (Hadd : forall v x y q, write_error v = None -> strip x <> "" ->
             exists t, get_id t = get_next_id (stored v)
                       /\ stored (exec (Add x q y) v) = (stored v ++ [t])%list).
  { intros v x y q Hv Hx. unfold exec. cbn [perform]. rewrite add_run by exact Hx.
    rewrite Hv. cbv zeta. eexists. split; [|reflexivity]. reflexivity. }
  destruct (Hadd w a c p Hw Ha) as (t & Ht & E).
  assert (Hw' : write_error (exec (Add a p c) w) = None) by now rewrite exec_write_error.
  destruct (Hadd _ a' c' p' Hw' Ha') as (t' & Ht' & E').
  rewrite E in Ht', E'. rewrite (get_next_id_snoc _ t Ht) in Ht'.
  apply truthy_true in Ha, Ha'. unfold assigned. rewrite Ha, Ha'.
  rewrite E, (get_next_id_snoc _ t Ht), E', !ids_app.
  split; [reflexivity|]. split; [reflexivity|].
  unfold ids at 2 3. simpl. rewrite Ht, Ht'. now rewrite <- app_assoc.
Qed.

Lemma adds_in_a_row_assign_consecutive_ids_witness :
  assigned (Add "y" Low "") (exec (Add "x" High "Work") (world_of three_items)) = Some 5.
Proof.
  exact (proj1 (proj2 (adds_in_a_row_assign_consecutive_ids (world_of three_items)
           "x" "Work" "y" "" High Low eq_refl ltac:(discriminate) ltac:(discriminate)))).
Defined.

Section Raising.

Lemma update_first_error (target : Z) (body : task -> task) (todos : list task) (e : exn) :
  update_first target body todos = inl e -> e = KeyError "id" /\ keyed todos = false.
Proof.
  induction todos as [|t rest IH]; simpl; [discriminate|].
  unfold keyed. simpl. unfold has_id at 1.
  destruct (tid t) as [i|]; [|now intros [= <-]].
  destruct (i =? target); [discriminate|].
  destruct (update_first target body rest) as [e'|rest']; [|discriminate].
  intros [= <-]. destruct (IH eq_refl) as [-> Hk].
  split; [reflexivity|]. exact Hk.
Qed.

Lemma without_error (target : Z) (todos : list task) (e : exn) :
  without target todos = inl e -> e = KeyError "id" /\ keyed todos = false.
Proof.
  destruct (keyed todos) eqn:Hk.
  - now rewrite without_keyed.
  - rewrite without_missing_id by exact Hk. now intros [= <-].
Qed.

(** A button raises only when the list it computes does, and then before
    anything is saved or shown. *)
Lemma button_raises (r : exn + list task) (k : script unit) (v : world) (e : exn) :
  (forall v', fst (k v') = Rerun) ->
  fst ((todos ← lift r; save_todos todos ;; k) v) = Raise e ->
  r = inl e /\ snd ((todos ← lift r; save_todos todos ;; k) v) = v.
Proof.
  intros Hk. rewrite bind_run. destruct r as [x|l]; simpl.
  - now intros [= ->].
  - rewrite bind_run. unfold save_todos.
    destruct (write_error v); simpl; rewrite Hk; discriminate.
Qed.

(** The row of an id is an active task of the collection with that id. *)
Lemma row_In (target : Z) (todos : list task) (todo : task) :
  row target todos = Some todo ->
  In todo todos /\ tid todo = Some target /\ get_completed todo = false.
Proof.
  unfold row, active_todos. intros H. apply find_some in H as [Hin Ht].
  apply filter_In in Hin as [Hin Hc].
  split; [exact Hin|]. split.
  - destruct (tid todo) as [i|]; [|discriminate]. apply Z.eqb_eq in Ht. now subst.
  - now apply negb_true_iff in Hc.
Qed.

(** The exceptions of one run: [KeyError] from a button that reads the id
    of a task without one, [ValueError] from the edit form of a row whose
    priority is no option; both before anything is saved. *)
Lemma perform_raises (o : op) (v : world) (e : exn) :
  fst (perform o v) = Raise e ->
  exec o v = loaded v
  /\ ((e = KeyError "id" /\ keyed (stored v) = false)
      \/ exists target nt nc np todo,
           o = Edit target nt nc np /\ row target (stored v) = Some todo
           /\ edit_form todo = inl e).
Proof.
  unfold exec.
  destruct o as [ttl p c|target|target|target nt nc np|target|]; cbn [perform].
  - destruct (string_dec (strip ttl) "") as [E|E].
    + now rewrite add_run_blank.
    + rewrite add_run by exact E. cbv zeta. now destruct (write_error v).
  - rewrite view_run. unfold complete_button. intros H.
    apply button_raises in H as [H ->]; [|reflexivity].
    split; [reflexivity|]. left. now apply update_first_error in H.
  - rewrite view_run. unfold undo_button. intros H.
    apply button_raises in H as [H ->]; [|reflexivity].
    split; [reflexivity|]. left. now apply update_first_error in H.
  - rewrite view_run.
    destruct (edit_row_cases target nt nc np (stored v) (loaded v))
      as [->|(todo & x & Hrow & Hf & ->)].
    + unfold save_button. intros H.
      apply button_raises in H as [H ->]; [|reflexivity].
      split; [reflexivity|]. left. now apply update_first_error in H.
    + cbn [fst snd]. intros [= <-]. split; [reflexivity|].
      right. exists target, nt, nc, np, todo. now repeat split.
  - rewrite view_run. unfold delete_button. intros H.
    apply button_raises in H as [H ->]; [|reflexivity].
    split; [reflexivity|]. left. now apply without_error in H.
  - rewrite view_run. unfold clear_button. cbv zeta. rewrite bind_run.
    unfold save_todos. now destruct (write_error (loaded v)).
Qed.

End Raising.

Section WellFormed.

Lemma well_formed_spec (t : task) :
  well_formed t = true <->
  exists i a c d q,
    t = Task (Some i) (Some a) (Some (label q)) (Some c) (Some d)
    /\ 1 <= i /\ strip a = a /\ strip c = c.
Proof.
  unfold well_formed, trimmed. split.
  - destruct t as [[i|] [a|] [p|] [c|] [d|]]; simpl; try discriminate.
    rewrite !andb_true_iff, Z.leb_le, !String.eqb_eq, !orb_true_iff, !String.eqb_eq.
    intros (((Hi & Ha) & Hc) & Hp). exists i, a, c, d.
    destruct Hp as [Hp|[Hp|[Hp|Hp]]];
      [exists Low|exists Medium|exists High|discriminate]; subst p;
      (split; [reflexivity|]); (split; [exact Hi|]); split; assumption.
  - intros (i & a & c & d & q & -> & Hi & Ha & Hc). cbn [tid title priority category completed].
    rewrite Ha, Hc, !String.eqb_refl, label_option.
    apply Z.leb_le in Hi. now rewrite Hi.
Qed.

Lemma well_formed_keyed (todos : list task) :
  forallb well_formed todos = true -> keyed todos = true.
Proof.
  unfold keyed. rewrite !forallb_forall. intros H t Ht.
  destruct (proj1 (well_formed_spec _) (H t Ht)) as (i & x & y & d & q & -> & _).
  reflexivity.
Qed.

(** The form of a well formed task can be drawn, and shows what the task
    holds. *)
Lemma well_formed_edit_form (t : task) :
  well_formed t = true ->
  exists a c index q,
    edit_form t = inr (a, c, index)
    /\ priority_options !! index = Some q
    /\ set_fields (strip a) (strip c) (label q) t = t.
Proof.
  intros H.
  destruct (proj1 (well_formed_spec _) H) as (i & x & y & d & q & -> & Hi & Hx & Hy).
  exists x, y.
  assert (Hsel : exists index,
             edit_form (Task (Some i) (Some x) (Some (label q)) (Some y) (Some d))
             = inr (x, y, index)
             /\ priority_options !! index = Some q).
  { destruct q; [exists 0%nat | exists 1%nat | exists 2%nat]; now split. }
  destruct Hsel as (index & Hform & Hq).
  exists index, q. split; [exact Hform|]. split; [exact Hq|].
  unfold set_fields. simpl. now rewrite Hx, Hy.
Qed.

Lemma exec_well_formed (o : op) (v : world) :
  forallb well_formed (stored v) = true ->
  forallb well_formed (stored (exec o v)) = true.
Proof.
  intros Hv. rewrite forallb_forall in *. intros t' Hin.
  destruct (exec_origin o v t' Hin) as [t Ht|t b Ht|t a c p Ht|a c p Ha].
  - now apply Hv.
  - destruct (proj1 (well_formed_spec _) (Hv t Ht)) as (i & x & y & d & q & -> & Hi & Hx & Hy).
    apply well_formed_spec. exists i, x, y, b, q.
    split; [reflexivity|]. split; [exact Hi|]. split; assumption.
  - destruct (proj1 (well_formed_spec _) (Hv t Ht)) as (i & x & y & d & q & -> & Hi & Hx & Hy).
    apply well_formed_spec. exists i, (strip a), (strip c), d, p.
    split; [reflexivity|]. split; [exact Hi|]. split; apply strip_twice.
  - apply well_formed_spec.
    exists (get_next_id (stored v)), (strip a), (strip c), false, p.
    split; [reflexivity|]. split; [|split; apply strip_twice].
    destruct (stored v) as [|t0 rest] eqn:Es; [simpl; lia|].
    assert (Ht0 : In t0 (t0 :: rest)) by now left.
    pose proof (get_next_id_above (t0 :: rest) t0 Ht0) as Hgt.
    destruct (proj1 (well_formed_spec _) (Hv t0 Ht0)) as (i & x & y & d & q & -> & Hi & _).
    change (get_id (Task (Some i) (Some x) (Some (label q)) (Some y) (Some d)))
      with i in Hgt.
    lia.
Qed.

Lemma run_well_formed (ops : list op) (w : world) :
  forallb well_formed (stored w) = true ->
  forallb well_formed (stored (run ops w)) = true.
Proof.
  unfold run. revert w.
  induction ops as [|o ops IH]; intros w Hw; simpl; [exact Hw|].
  apply IH. now apply exec_well_formed.
Qed.

(** Two tasks of a collection with distinct ids that carry the same id are
    one task. *)
Lemma unique_ids_same (todos : list task) (a b : task) :
  unique_ids todos -> In a todos -> In b todos -> get_id a = get_id b -> a = b.
Proof.
  unfold unique_ids, ids.
  induction todos as [|t rest IH]; simpl; [intros _ []|].
  rewrite NoDup_cons. intros [Hn Hd] [<-|Ha] [<-|Hb] E.
  - reflexivity.
  - exfalso. apply Hn. apply list_elem_of_In. rewrite E. now apply in_map.
  - exfalso. apply Hn. apply list_elem_of_In. rewrite <- E. now apply in_map.
  - now apply IH.
Qed.

End WellFormed.

(** X16.  A run ends with an exception in two cases only, and in both before
    anything is saved or reported, the file being as loading left it: a
    button reads the id of a task that has none ([KeyError: 'id']), or the
    edit form is drawn for a row whose priority is none of the three options
    ([ValueError] from [list.index]).  Whenever the form of the row cannot
    be drawn, saving it raises.  From a collection whose tasks are all as
    the forms leave them, no sequence of operations leads to an
    exception. *)
Theorem runs_raise_before_saving (o : op) (w : world) :
  (forall e, fst (perform o w) = Raise e ->
     exec o w = loaded w
     /\ ((e = KeyError "id" /\ keyed (stored w) = false)
         \/ exists target nt nc np todo,
              o = Edit target nt nc np /\ row target (stored w) = Some todo
              /\ edit_form todo = inl e))
  /\ (forall target nt nc np todo e,
        row target (stored w) = Some todo -> edit_form todo = inl e ->
        perform (Edit target nt nc np) w = (Raise e, loaded w))
  /\ (forallb well_formed (stored w) = true ->
      forall ops e, fst (perform o (run ops w)) <> Raise e).
Proof.
  split; [apply perform_raises|]. split.
  - intros target nt nc np todo e Hrow Hf. cbn [perform]. rewrite view_run.
    unfold edit_row. rewrite Hrow. rewrite bind_run. now rewrite Hf.
  - intros Hwf ops e H.
    pose proof (run_well_formed ops w Hwf) as Hwf'.
    apply perform_raises in H as (_ & [(_ & Hk)|(target & nt & nc & np & todo & _ & Hrow & Hf)]).
    + rewrite (well_formed_keyed _ Hwf') in Hk. discriminate.
    + apply row_In in Hrow as (Hin & _). rewrite forallb_forall in Hwf'.
      destruct (well_formed_edit_form todo (Hwf' todo Hin)) as (a & c & i & q & Hf' & _).
      rewrite Hf' in Hf. discriminate.
Qed.

Lemma runs_raise_before_saving_witness :
  perform (Edit 1 "call" "" Low) (world_of [urgent_task])
  = (Raise (ValueError "Urgent"), world_of [urgent_task])
  /\ exec (Complete 1) (world_of [work_high; item 1 "a" Low "" false])
     = world_of [work_high; item 1 "a" Low "" false].
Proof.
  split.
  - exact (proj1 (proj2 (runs_raise_before_saving (Edit 1 "call" "" Low)
             (world_of [urgent_task])))
             1 "call" "" Low urgent_task (ValueError "Urgent") eq_refl eq_refl).
  - exact (proj1 (proj1 (runs_raise_before_saving (Complete 1)
             (world_of [work_high; item 1 "a" Low "" false])) (KeyError "id") eq_refl)).
Defined.

(** X17.  Tasks stay as the forms leave them.  When every stored task has
    its five keys, a positive id, a trimmed title, a trimmed category and
    one of the three priorities, this is still so after any sequence of
    operations: the input form and the edit form store trimmed text and an
    option of the select box, and the other buttons change [completed]
    only or remove tasks. *)
Theorem stored_tasks_stay_well_formed (ops : list op) (w : world) :
  forallb well_formed (stored w) = true ->
  forallb well_formed (stored (run ops w)) = true.
Proof.
  unfold run. revert w.
  induction ops as [|o ops IH]; intros w Hw; simpl; [exact Hw|].
  apply IH. now apply exec_well_formed.
Qed.

Lemma stored_tasks_stay_well_formed_witness :
  forallb well_formed
    (stored (run [Add "  buy milk " High " Home "; Edit 2 " b2 " "" Low; Complete 1]
               (world_of three_items))) = true.
Proof.
  exact (stored_tasks_stay_well_formed
           [Add "  buy milk " High " Home "; Edit 2 " b2 " "" Low; Complete 1]
           (world_of three_items) eq_refl).
Defined.

(** ** The edit form *)

(** X18.  The edit form of a row can be drawn exactly when the priority the
    row shows is one of "Low", "Medium" and "High": its text inputs start
    from the stored title and category (empty when the task has none) and
    its select box from the option equal to that priority.  For any other
    priority [list.index] finds nothing and the form raises [ValueError]. *)
Theorem edit_form_needs_a_known_priority (todo : task) :
  (forall shown, edit_form todo = inl (ValueError shown) <->
     shown = default "Low" (priority todo)
     /\ shown <> "Low" /\ shown <> "Medium" /\ shown <> "High")
  /\ (forall new_title new_category index,
        edit_form todo = inr (new_title, new_category, index) <->
        new_title = default "" (title todo)
        /\ new_category = default "" (category todo)
        /\ exists p, priority_options !! index = Some p
                     /\ label p = default "Low" (priority todo))
  /\ (priority todo = None -> edit_form todo
                              = inr (default "" (title todo), default "" (category todo), O)).
Proof.
  unfold edit_form. cbv zeta.
  set (shown := default "Low" (priority todo)).
  assert (Hidx : (shown = "Low" /\ list_index shown (map label priority_options) = Some 0%nat)
                 \/ (shown = "Medium" /\ list_index shown (map label priority_options) = Some 1%nat)
                 \/ (shown = "High" /\ list_index shown (map label priority_options) = Some 2%nat)
                 \/ (shown <> "Low" /\ shown <> "Medium" /\ shown <> "High"
                     /\ list_index shown (map label priority_options) = None)).
  { unfold priority_options. cbn [list_index map label].
    destruct (String.eqb_spec "Low" shown) as [<-|H1]; [now left|].
    destruct (String.eqb_spec "Medium" shown) as [<-|H2]; [right; now left|].
    destruct (String.eqb_spec "High" shown) as [<-|H3]; [right; right; now left|].
    right. right. right. repeat split; congruence. }
  split; [|split].
  - intros s. destruct Hidx as [[E ->]|[[E ->]|[[E ->]|(H1 & H2 & H3 & ->)]]].
    + split; [discriminate|]. intros (-> & H & _). contradiction.
    + split; [discriminate|]. intros (-> & _ & H & _). contradiction.
    + split; [discriminate|]. intros (-> & _ & _ & H). contradiction.
    + split; [now intros [= <-] | now intros (-> & _)].
  - intros a c i. destruct Hidx as [[E ->]|[[E ->]|[[E ->]|(H1 & H2 & H3 & ->)]]].
    + split.
      * intros [= <- <- <-]. repeat split. exists Low. now rewrite E.
      * intros (-> & -> & p & Hp & Hl). rewrite E in Hl. f_equal. f_equal.
        destruct i as [|[|[|i]]], p; simpl in Hp; try discriminate; reflexivity.
    + split.
      * intros [= <- <- <-]. repeat split. exists Medium. now rewrite E.
      * intros (-> & -> & p & Hp & Hl). rewrite E in Hl. f_equal. f_equal.
        destruct i as [|[|[|i]]], p; simpl in Hp; try discriminate; reflexivity.
    + split.
      * intros [= <- <- <-]. repeat split. exists High. now rewrite E.
      * intros (-> & -> & p & Hp & Hl). rewrite E in Hl. f_equal. f_equal.
        destruct i as [|[|[|i]]], p; simpl in Hp; try discriminate; reflexivity.
    + split; [discriminate|].
      intros (_ & _ & p & _ & Hl). destruct p; simpl in Hl; congruence.
  - intros Hp. subst shown. rewrite Hp. reflexivity.
Qed.

(** X19.  Saving the edit form of a row as it was drawn changes nothing,
    when the tasks are as the forms leave them and no two carry the same
    id: the form of the row can be drawn, the trimmed title, the trimmed
    category and the selected priority are the ones the task of the row
    already has, and, the file being writable, the run ends in a rerun with
    the stored collection as it was. *)
Theorem untouched_edit_changes_nothing (w : world) (target : Z) (todo : task) :
  forallb well_formed (stored w) = true -> unique_ids (stored w) ->
  write_error w = None ->
  row target (stored w) = Some todo ->
  exists new_title new_category index new_priority,
    edit_form todo = inr (new_title, new_category, index)
    /\ priority_options !! index = Some new_priority
    /\ set_fields (strip new_title) (strip new_category) (label new_priority) todo = todo
    /\ update_first target
         (set_fields (strip new_title) (strip new_category) (label new_priority)) (stored w)
       = inr (stored w)
    /\ fst (perform (Edit target new_title new_category new_priority) w) = Rerun
    /\ stored (exec (Edit target new_title new_category new_priority) w) = stored w.
Proof.
  intros Hwf Hu Hw Hrow.
  pose proof (well_formed_keyed _ Hwf) as Hk.
  destruct (row_In _ _ _ Hrow) as (Hin & Hid & _).
  assert (Hin' : In target (ids (stored w))).
  { unfold ids. apply in_map_iff. exists todo. split; [|exact Hin].
    unfold get_id. now rewrite Hid. }
  destruct (update_first_present target (stored w) Hk Hin')
    as (pre & t & post & E & Ht & Hpre & Hbody).
  assert (Hint : In t (stored w)) by (rewrite E; apply in_or_app; right; now left).
  assert (Et : t = todo).
  { apply (unique_ids_same (stored w)); try assumption.
    unfold get_id. now rewrite Ht, Hid. }
  subst t.
  rewrite forallb_forall in Hwf.
  destruct (well_formed_edit_form todo (Hwf todo Hin)) as (a & c & index & q & Hf & Hq & Hsame).
  exists a, c, index, q.
  split; [exact Hf|]. split; [exact Hq|]. split; [exact Hsame|].
  assert (Hup : update_first target (set_fields (strip a) (strip c) (label q)) (stored w)
                = inr (stored w)).
  { rewrite Hbody, Hsame. now rewrite <- E. }
  split; [exact Hup|].
  assert (Hw' : write_error (loaded w) = None) by now rewrite loaded_write_error.
  unfold exec. cbn [perform]. rewrite view_run.
  assert (Hr : edit_row target a c q (stored w) (loaded w)
               = save_button target a c q (stored w) (loaded w)).
  { unfold edit_row. now rewrite Hrow, Hf. }
  rewrite Hr. unfold save_button. rewrite bind_run, Hup.
  change (lift (inr (stored w)) (loaded w)) with (Return (stored w), loaded w).
  cbv beta iota. rewrite bind_run, (save_todos_ok _ _ Hw'). cbv beta iota.
  split; [reflexivity|].
  reflexivity.
Qed.

Lemma untouched_edit_changes_nothing_witness :
  stored (exec (Edit 1 "a" "" Low) (world_of two_items)) = two_items.
Proof.
  assert (Hu : unique_ids (stored (world_of two_items))).
  { unfold unique_ids. change (NoDup [1; 2]).
    constructor; [|constructor; [|constructor]];
      intros H; apply list_elem_of_In in H; simpl in H; intuition lia. }
  destruct (untouched_edit_changes_nothing (world_of two_items) 1
              (item 1 "a" Low "" false) eq_refl Hu eq_refl eq_refl)
    as (a & c & i & p & Hf & Hp & _ & _ & _ & Hs).
  injection Hf as <- <- <-.
  injection Hp as <-.
  exact Hs.
Defined.
